(** * Better-Kualitee: the bulk CSV workflow and its API gateway

    A shallow embedding of [modules/defect.py] and [modules/test_cycle.py]:
    the API clients ([KualiteeDefectAPI], [KualiteeAPI]), the validation
    loops of [update_bulk_defects] and [execute_all_from_csv], and the
    execution loops that follow them.

    Conventions of the embedding.
    - Values decoded by [response.json()] are [json] trees; a Python [dict]
      with string keys is a [gmap string _].
    - A Python [str] is a [string]; its characters are the elements of the
      [string].  [str.lower] is modelled on the letters A-Z, which is all
      that a comparison with ['close'] or with an allowed extension can
      observe.
    - The remote service is an oracle [net] from the requests sent so far and
      the current request to the outcome of the transport.  The [world]
      records every request sent and every log record of level WARNING or
      ERROR; INFO and DEBUG records carry wall-clock durations and
      [json.dumps] output and are not tracked.
    - Code that can raise returns a [result]; code that also talks to the
      service lives in the monad [M]. *)

From Stdlib Require Import ZArith String Ascii List Lia.
From stdpp Require Import gmap strings list fin_maps pretty.

Set Warnings "-register-all,-clear-no-such-hyp".
Local Open Scope string_scope.

(** ** Python values *)

Module Py.

Inductive json : Type :=
| JNull
| JBool (b : bool)
| JInt (z : Z)
| JFloat (repr : string)   (* a float, identified by the text Python prints for it *)
| JStr (s : string)
| JList (l : list json)
| JDict (d : gmap string json).

(** Truth value of an object, as tested by [if x] and [not x]. *)
Definition truthy (v : json) : bool :=
  match v with
  | JNull => false
  | JBool b => b
  | JInt z => negb (z =? 0)%Z
  | JFloat r => negb (String.eqb r "0.0" || String.eqb r "-0.0")
  | JStr s => negb (String.eqb s "")
  | JList l => match l with [] => false | _ => true end
  | JDict d => negb (Nat.eqb (size d) 0)
  end.

(** Truth value of a [dict]: false exactly on the empty one. *)
Definition dict_truthy {A} (d : gmap string A) : bool := negb (Nat.eqb (size d) 0).

Section Str.
(** [repr_container] is what the builtin [str] prints for a list or a
    dict (their [repr]); it is left to the interpreter. *)
Variable repr_container : json -> string.

Definition str (v : json) : string :=
  match v with
  | JNull => "None"
  | JBool true => "True"
  | JBool false => "False"
  | JInt z => pretty z
  | JFloat r => r
  | JStr s => s
  | JList _ | JDict _ => repr_container v
  end.
End Str.

Definition lower_char (c : ascii) : ascii :=
  let n := nat_of_ascii c in
  if (65 <=? n)%nat && (n <=? 90)%nat then ascii_of_nat (n + 32) else c.

Fixpoint lower (s : string) : string :=
  match s with
  | EmptyString => EmptyString
  | String c s' => String (lower_char c) (lower s')
  end.

(** [sep.join(parts)] *)
Definition join (sep : string) (parts : list string) : string :=
  String.concat sep parts.

(** [s[:n]] and [s[-n:]] for [n > 0]. *)
Definition slice_to (n : nat) (s : string) : string := substring 0 n s.
Definition slice_last (n : nat) (s : string) : string :=
  substring (String.length s - n) n s.

Inductive exn : Type :=
| ConnectionFailure        (* requests.exceptions.ConnectionError, Timeout, ... *)
| HTTPError (code : Z)     (* raised by raise_for_status *)
| JSONDecodeError          (* raised by response.json() *)
| TypeError
| AttributeError
| KeyError
| OSError.

Inductive result (A : Type) : Type :=
| Ok (a : A)
| Raise (e : exn).
Arguments Ok {A} a.
Arguments Raise {A} e.

Definition rbind {A B} (r : result A) (k : A -> result B) : result B :=
  match r with
  | Ok a => k a
  | Raise e => Raise e
  end.

End Py.
Import Py.

(** ** Transport, log and world *)

Inductive payload : Type :=
| NoBody
| JsonBody (j : gmap string json)
| FormBody (f : gmap string string)
| MultipartBody (data : gmap string string) (file : string).

Record request : Type := Request {
  req_method : string;
  req_endpoint : string;
  req_body : payload
}.

(** What [session.request] yields: an exception of the transport, or a
    response with its status code, its raw text and, when the text parses,
    the JSON object [response.json()] returns. *)
Inductive transport : Type :=
| Unreachable
| Response (status_code : Z) (text : string) (body : option (gmap string json)).

Inductive log_level : Type := WARNING | ERROR.

Record world : Type := World {
  sent : list request;
  errlog : list (log_level * string)
}.

Definition M (A : Type) : Type := world -> world * result A.

Definition ret {A} (a : A) : M A := fun w => (w, Ok a).
Definition throw {A} (e : exn) : M A := fun w => (w, Raise e).
Definition bind {A B} (m : M A) (k : A -> M B) : M B :=
  fun w => match m w with
           | (w', Ok a) => k a w'
           | (w', Raise e) => (w', Raise e)
           end.
(** [try: m  except Exception as e: h e] *)
Definition catch {A} (m : M A) (h : exn -> M A) : M A :=
  fun w => match m w with
           | (w', Ok a) => (w', Ok a)
           | (w', Raise e) => h e w'
           end.
Definition lift {A} (r : result A) : M A := fun w => (w, r).
Definition log (lvl : log_level) (msg : string) : M unit :=
  fun w => (World (sent w) (errlog w ++ [(lvl, msg)]), Ok tt).

Notation "'do' x <- m ; k" := (bind m (fun x => k))
  (at level 10, x name, m at level 100, k at level 200).
Notation "'run' m ; k" := (bind m (fun _ => k))
  (at level 10, m at level 100, k at level 200).

Definition raise_for_status (code : Z) : result unit :=
  if ((400 <=? code) && (code <? 600))%Z then Raise (HTTPError code) else Ok tt.

Definition response_json (body : option (gmap string json)) : result (gmap string json) :=
  match body with
  | Some j => Ok j
  | None => Raise JSONDecodeError
  end.

Definition dquote : string := String "034"%char EmptyString.

(** The environment of one run: the service, the text of an exception
    ([str(e)]), the [repr] of containers, and the local file system as seen
    through [pathlib]. *)
Record env : Type := Env {
  net : list request -> request -> transport;
  exn_str : exn -> string;
  json_error_is_request_exception : bool;   (* true from requests 2.27 on *)
  repr_container : json -> string;
  allowed_extensions_repr : string;         (* str(ALLOWED_EXTENSIONS), a set *)
  path_exists : string -> bool;             (* Path(p).exists() *)
  path_suffix : string -> string;           (* Path(p).suffix *)
  path_name : string -> string;             (* Path(p).name *)
  path_str : string -> string;              (* str(Path(p)) *)
  can_open : string -> bool                 (* open(Path(p), 'rb') succeeds *)
}.

(** [isinstance(e, RequestException)] *)
Definition is_request_exception (E : env) (e : exn) : bool :=
  match e with
  | ConnectionFailure | HTTPError _ => true
  | JSONDecodeError => json_error_is_request_exception E
  | _ => false
  end.

Definition send (E : env) (r : request) : M transport :=
  fun w => (World (sent w ++ [r]) (errlog w), Ok (net E (sent w) r)).

(** ** modules/defect.py *)

Module Defect.

(** [mask_token] *)
Definition mask_token (token : string) : string :=
  if (String.length token <=? 8)%nat then "****"
  else slice_to 4 token ++ "..." ++ slice_last 4 token.

Section API.
Variable E : env.
(** [self.token], [self.project_id] *)
Variable token : string.
Variable project_id : Z.

(** [KualiteeDefectAPI._request] *)
Definition _request (method endpoint : string) (body : payload)
  : M (gmap string json) :=
  do t <- send E (Request method endpoint body);
  match t with
  | Unreachable => throw ConnectionFailure
  | Response status_code text body =>
      run (if (status_code =? 200)%Z then ret tt
           else run log ERROR ("API Error: " ++ text);
                lift (raise_for_status status_code));
      lift (response_json body)
  end.

(** [KualiteeDefectAPI.list_defects]; the value returned is that of the
    ['data'] key, [JList []] standing for the empty list. *)
Definition list_defects (length : Z) : M json :=
  catch
    (do response <- _request "POST" "/defects/list"
         (JsonBody (<["token" := JStr token]>
                   (<["project_id" := JInt project_id]>
                   (<["length" := JInt length]> ∅))));
     let defects := default (JList []) (response !! "data") in
     match defects with
     | JNull | JBool _ | JInt _ | JFloat _ => throw TypeError   (* len(defects) *)
     | _ => ret defects
     end)
    (fun e =>
       run (if is_request_exception E e
            then log ERROR ("Failed to list defects: " ++ exn_str E e)
            else log ERROR ("Unexpected error listing defects: " ++ exn_str E e));
       ret (JList [])).

(** [KualiteeDefectAPI.get_defect_details] *)
Definition get_defect_details (defect_id : string) : M (option (gmap string json)) :=
  catch
    (do response <- _request "GET"
         ("/defects/details?project_id=" ++ pretty project_id
            ++ "&defect_id=" ++ defect_id ++ "&token=" ++ token) NoBody;
     ret (Some response))
    (fun e =>
       run (if is_request_exception E e
            then log ERROR ("Failed to get defect details: " ++ exn_str E e)
            else log ERROR ("Unexpected error getting defect details: " ++ exn_str E e));
       ret None).

(** The value [update_defect] stores in [form_data] for one field of the
    snapshot; [None] when the field is skipped. *)
Definition form_value (value : json) : option string :=
  match value with
  | JNull => Some ""
  | JList l =>
      Some (match l with
            | [] => ""
            | _ => join "," (map (str (repr_container E)) l)
            end)
  | JDict _ => None
  | _ => Some (str (repr_container E) value)
  end.

(** [form_data] as it is passed to [_request] by [update_defect]. *)
Definition update_defect_form (defect_id status rca : string)
    (defect_data : gmap string json) : gmap string string :=
  let form_data :=
    map_fold (fun key value form_data =>
                match form_value value with
                | Some s => <[key := s]> form_data
                | None => form_data
                end) ∅ defect_data in
  let form_data := <["status" := status]> form_data in
  let form_data := <["custom_field_11665" := rca]> form_data in
  let form_data := <["token" := token]> form_data in
  let form_data := <["project_id" := pretty project_id]> form_data in
  let form_data := <["id" := defect_id]> form_data in
  <["defect_id" := defect_id]> form_data.

(** [KualiteeDefectAPI.update_defect] *)
Definition update_defect (defect_id status rca : string)
    (defect_data : gmap string json) : M bool :=
  catch
    (run _request "POST" "/defects/update"
       (FormBody (update_defect_form defect_id status rca defect_data));
     ret true)
    (fun e =>
       run (if is_request_exception E e
            then log ERROR ("Failed to update defect: " ++ exn_str E e)
            else log ERROR ("Unexpected error updating defect: " ++ exn_str E e));
       ret false).

(** One task of the pool in [get_multiple_defects]: [futures[future]] and
    the outcome of [future.result()], which is what [fetch_defect] returned
    or raised. *)
Definition future : Type := string * result (string * option (gmap string json)).

(** [fetch_defect], run to completion by a worker. *)
Definition submit (did : string) : M future :=
  fun w => match get_defect_details did w with
           | (w', Ok details) => (w', Ok (did, Ok (did, details)))
           | (w', Raise e) => (w', Ok (did, Raise e))
           end.

Fixpoint run_workers (started : list string) : M (list future) :=
  match started with
  | [] => ret []
  | did :: rest =>
      do f <- submit did;
      do fs <- run_workers rest;
      ret (f :: fs)
  end.

(** The loop over [as_completed(futures)], filling [results]. *)
Definition collect (completed : list future)
  : gmap string (option (gmap string json)) :=
  fold_left (fun results (f : future) =>
               match snd f with
               | Ok (defect_id, details) => <[defect_id := details]> results
               | Raise _ => <[fst f := None]> results
               end) completed ∅.

(** [KualiteeDefectAPI.get_multiple_defects].  The pool leaves two choices
    open: the order in which the workers reach the service ([started]) and
    the order in which [as_completed] hands the futures back ([completed]);
    every permutation is allowed.  Each worker's exchange with the service
    is taken as one step. *)
Definition get_multiple_defects (defect_ids : list string) (w w' : world)
    (results : gmap string (option (gmap string json))) : Prop :=
  exists started fetched completed,
    started ≡ₚ defect_ids /\
    run_workers started w = (w', Ok fetched) /\
    completed ≡ₚ fetched /\
    results = collect completed.

(** *** [update_bulk_defects] *)

Record csv_row : Type := CsvRow {
  row_defect_id : string;    (* row['defect_id'] *)
  row_status : string;       (* row['status'] *)
  row_RCA : string           (* row['RCA'] *)
}.

(** Elements of the lists [valid] and [skipped]. *)
Definition valid_entry : Type := string * string * string * gmap string json.
Definition skipped_entry : Type := string * string.

Inductive decision : Type :=
| Eligible (v : valid_entry)
| Skipped (s : skipped_entry).

Definition invalid_status_reason (status : string) : string :=
  "Invalid status: " ++ status ++ " (must be " ++ dquote ++ "close" ++ dquote ++ ")".

(** [defect.get('status', '').lower()] *)
Definition current_status (defect : gmap string json) : result string :=
  match default (JStr "") (defect !! "status") with
  | JStr s => Ok (lower s)
  | _ => Raise AttributeError
  end.

(** [defects_data.get(defect_id)] followed by [if not defect]: the defect
    when the lookup gives a non-empty dict. *)
Definition found_defect (defects_data : gmap string (option (gmap string json)))
    (defect_id : string) : option (gmap string json) :=
  match defects_data !! defect_id with
  | Some (Some defect) => if dict_truthy defect then Some defect else None
  | _ => None
  end.

(** The body of the validation loop, for one row. *)
Definition check_row (defects_data : gmap string (option (gmap string json)))
    (row : csv_row) : result decision :=
  let defect_id := row_defect_id row in
  let status := row_status row in
  let rca := row_RCA row in
  if negb (String.eqb (lower status) "close") then
    Ok (Skipped (defect_id, invalid_status_reason status))
  else
    match found_defect defects_data defect_id with
    | None => Ok (Skipped (defect_id, "Defect not found"))
    | Some defect =>
        rbind (current_status defect) (fun current =>
          if String.eqb current "close" then
            Ok (Skipped (defect_id, "Already closed"))
          else Ok (Eligible (defect_id, status, rca, defect)))
    end.

Fixpoint validate_loop (defects_data : gmap string (option (gmap string json)))
    (csv_rows : list csv_row) (valid : list valid_entry)
    (skipped : list skipped_entry)
  : result (list valid_entry * list skipped_entry) :=
  match csv_rows with
  | [] => Ok (valid, skipped)
  | row :: rest =>
      rbind (check_row defects_data row) (fun d =>
        match d with
        | Eligible v => validate_loop defects_data rest (valid ++ [v]) skipped
        | Skipped s => validate_loop defects_data rest valid (skipped ++ [s])
        end)
  end.

Definition validate (defects_data : gmap string (option (gmap string json)))
    (csv_rows : list csv_row) : result (list valid_entry * list skipped_entry) :=
  validate_loop defects_data csv_rows [] [].

(** The update loop; it returns [(success_count, fail_count)]. *)
Fixpoint execute_updates (valid : list valid_entry)
    (success_count fail_count : nat) : M (nat * nat) :=
  match valid with
  | [] => ret (success_count, fail_count)
  | (defect_id, status, rca, defect) :: rest =>
      do ok <- update_defect defect_id status rca defect;
      if ok : bool then execute_updates rest (S success_count) fail_count
      else execute_updates rest success_count (S fail_count)
  end.

(** The three numbers of the summary: success, failed, skipped. *)
Definition execute_and_summarise (valid : list valid_entry)
    (skipped : list skipped_entry) : M (nat * nat * nat) :=
  do counts <- execute_updates valid 0 0;
  ret (fst counts, snd counts, length skipped).

End API.
End Defect.

(** ** modules/test_cycle.py *)

Module TestCycle.

Definition ALLOWED_EXTENSIONS : list string :=
  ["gif"; "jpg"; "png"; "jpeg"; "pdf"; "docx"; "csv";
   "xls"; "ppt"; "mp4"; "webm"; "msg"; "eml"; "zip"; "xml"; "pcap"].

(** [ext in ALLOWED_EXTENSIONS] *)
Definition allowed (ext : string) : bool :=
  existsb (String.eqb ext) ALLOWED_EXTENSIONS.

(** [mask_token] *)
Definition mask_token (token : string) : string :=
  if (String.length token <=? 8)%nat then "****"
  else slice_to 4 token ++ "..." ++ slice_last 4 token.

(** [Path(p).suffix[1:].lower()] *)
Definition extension (E : env) (p : string) : string :=
  lower (match path_suffix E p with
         | EmptyString => EmptyString
         | String _ rest => rest
         end).

Section API.
Variable E : env.
(** [self.token], [self.project_id] *)
Variable token : string.
Variable project_id : Z.

(** What [_request] hands to the session.  With [files] the call posts
    [data] and the file as multipart; a POST without [files] posts
    [json_data]; any other method is a GET of the bare URL. *)
Definition payload_of (method : string) (json_data : option (gmap string json))
    (files : option string) (data : option (gmap string string)) : payload :=
  if String.eqb method "POST" then
    match files with
    | Some file => MultipartBody (default ∅ data) file
    | None => match json_data with Some j => JsonBody j | None => NoBody end
    end
  else NoBody.

(** [KualiteeAPI._request] *)
Definition _request (method endpoint : string)
    (json_data : option (gmap string json)) (files : option string)
    (data : option (gmap string string)) : M (gmap string json) :=
  do t <- send E (Request method endpoint
                    (payload_of method json_data files data));
  match t with
  | Unreachable =>
      run log ERROR ("API request failed: " ++ exn_str E ConnectionFailure);
      throw ConnectionFailure
  | Response status_code text parsed =>
      match raise_for_status status_code with
      | Raise e =>
          run log ERROR ("API request failed: " ++ exn_str E e);
          run log ERROR ("Error response: " ++
                         match parsed with
                         | Some error_data => repr_container E (JDict error_data)
                         | None => text
                         end);
          throw e
      | Ok _ =>
          match response_json parsed with
          | Ok j => ret j
          | Raise e =>
              run (if is_request_exception E e
                   then log ERROR ("API request failed: " ++ exn_str E e)
                   else ret tt);
              throw e
          end
      end
  end.

(** [KualiteeAPI.list_cycles] *)
Definition list_cycles : M json :=
  do response <- _request "POST" "/cycle/list"
       (Some (<["token" := JStr token]>
             (<["project_id" := JInt project_id]> ∅))) None None;
  if negb (dict_truthy response) then
    run log WARNING "No cycles data in response"; ret (JList [])
  else match response !! "data" with
       | None => run log WARNING "No cycles data in response"; ret (JList [])
       | Some data => ret data
       end.

(** [KualiteeAPI.list_test_cases] *)
Definition list_test_cases (cycle_id : json) : M json :=
  let warning := "No test cases data in response for cycle "
                   ++ str (repr_container E) cycle_id in
  do response <- _request "POST" "/test_case_execution/list"
       (Some (<["token" := JStr token]>
             (<["project_id" := JInt project_id]>
             (<["cycle_id" := cycle_id]>
             (<["length" := JInt 2000]> ∅))))) None None;
  if negb (dict_truthy response) then
    run log WARNING warning; ret (JList [])
  else match response !! "data" with
       | None => run log WARNING warning; ret (JList [])
       | Some data => ret data
       end.

(** [response['executed_results'][0].get('id')] *)
Definition first_result_id (executed_results : json) : result json :=
  match executed_results with
  | JList (JDict r :: _) => Ok (default JNull (r !! "id"))
  | JList (_ :: _) => Raise AttributeError
  | JStr _ => Raise AttributeError
  | JDict _ => Raise KeyError
  | _ => Raise TypeError
  end.

(** [KualiteeAPI.execute_test]; [JNull] is Python's [None]. *)
Definition execute_test (tc_id build_id cycle_id testscenario_id : json)
  : M json :=
  do response <- _request "POST" "/test_case_execution/execute"
       (Some (<["token" := JStr token]>
             (<["project_id" := JInt project_id]>
             (<["cycle_id" := cycle_id]>
             (<["build_id" := build_id]>
             (<["tc_id" := tc_id]>
             (<["status" := JStr "Passed"]>
             (<["execute" := JStr "yes"]>
             (<["testscenario_id" := testscenario_id]> ∅))))))))) None None;
  if negb (dict_truthy response) then ret JNull
  else if negb (truthy (default JNull (response !! "status"))) then
    run log ERROR ("Test execution failed: "
                   ++ str (repr_container E) (default JNull (response !! "message")));
    ret JNull
  else
    match response !! "executed_results" with
    | None => run log ERROR "No execution results in response"; ret JNull
    | Some executed_results =>
        if negb (truthy executed_results) then
          run log ERROR "No execution results in response"; ret JNull
        else lift (first_result_id executed_results)
    end.

(** [KualiteeAPI.upload_attachment] *)
Definition upload_attachment (testcase_id cycle_id execution_id : json)
    (file_path : string) : M bool :=
  if negb (path_exists E file_path) then
    run log ERROR ("File not found: " ++ path_str E file_path); ret false
  else
    let ext := extension E file_path in
    if negb (allowed ext) then
      run log ERROR ("Invalid file type: " ++ ext ++ ". Allowed: "
                     ++ allowed_extensions_repr E);
      ret false
    else
      catch
        (run (if can_open E file_path then ret tt else throw OSError);
         let data :=
           <["token" := token]>
           (<["project_id" := pretty project_id]>
           (<["cycle_id" := str (repr_container E) cycle_id]>
           (<["testcase_id" := str (repr_container E) testcase_id]>
           (<["execution_id" := str (repr_container E) execution_id]>
           (<["type" := "tc"]>
           (<["sub_testcase_id" := ""]> ∅)))))) in
         do response <- _request "POST"
              "/test_case_execution/execution_attachments"
              None (Some (path_name E file_path)) (Some data);
         if dict_truthy response
            && truthy (default JNull (response !! "status"))
         then ret true
         else
           run log ERROR ("Attachment upload failed: "
                          ++ repr_container E (JDict response));
           ret false)
        (fun e =>
           run log ERROR ("Error uploading attachment: " ++ exn_str E e);
           ret false).

(** *** [execute_all_from_csv] *)

Record csv_row : Type := CsvRow {
  row_test_case_name : string;   (* row['test_case_name'] *)
  row_status : string;           (* row['status'] *)
  row_attachment : string        (* row['attachment'] *)
}.

(** Elements of the lists [matched] and [skipped]; the last component of a
    skipped entry is the attachment, or [None]. *)
Definition matched_entry : Type := string * gmap string json * string.
Definition skipped_entry : Type := string * string * option string.

Inductive decision : Type :=
| Eligible (m : matched_entry)
| Skipped (s : skipped_entry).

(** [{tc.get('tc_name'): tc for tc in test_cases}], as seen by lookups
    with a [str]: an entry whose key is no [str] (a missing or null name, a
    number) is never found by such a lookup and is left out; a list or a
    dict cannot be a key. *)
Definition lookup_add (acc : result (gmap string (gmap string json)))
    (tc : gmap string json) : result (gmap string (gmap string json)) :=
  rbind acc (fun lookup =>
    match tc !! "tc_name" with
    | Some (JStr name) => Ok (<[name := tc]> lookup)
    | Some (JList _) | Some (JDict _) => Raise TypeError
    | _ => Ok lookup
    end).

Definition test_lookup (test_cases : list (gmap string json))
  : result (gmap string (gmap string json)) :=
  fold_left lookup_add test_cases (Ok ∅).

Definition invalid_status_reason : string :=
  "Invalid status (must be " ++ dquote ++ "Passed" ++ dquote ++ ")".

(** The body of the matching loop, for one row. *)
Definition check_row (lookup : gmap string (gmap string json))
    (row : csv_row) : decision :=
  let tc_name := row_test_case_name row in
  let status := row_status row in
  let attachment := row_attachment row in
  if negb (String.eqb status "Passed") then
    Skipped (tc_name, invalid_status_reason, None)
  else
    match lookup !! tc_name with
    | None => Skipped (tc_name, "Test case not found", Some attachment)
    | Some tc =>
        if negb (path_exists E attachment) then
          Skipped (tc_name, "File not found: " ++ attachment, Some attachment)
        else
          let ext := extension E attachment in
          if negb (allowed ext) then
            Skipped (tc_name, "Invalid file type: " ++ ext, Some attachment)
          else Eligible (tc_name, tc, attachment)
    end.

Fixpoint validate_loop (lookup : gmap string (gmap string json))
    (csv_rows : list csv_row) (matched : list matched_entry)
    (skipped : list skipped_entry)
  : list matched_entry * list skipped_entry :=
  match csv_rows with
  | [] => (matched, skipped)
  | row :: rest =>
      match check_row lookup row with
      | Eligible m => validate_loop lookup rest (matched ++ [m]) skipped
      | Skipped s => validate_loop lookup rest matched (skipped ++ [s])
      end
  end.

Definition validate (test_cases : list (gmap string json))
    (csv_rows : list csv_row)
  : result (list matched_entry * list skipped_entry) :=
  rbind (test_lookup test_cases) (fun lookup =>
    Ok (validate_loop lookup csv_rows [] [])).

(** The body of the execution loop for one matched row: [true] when the
    row adds to [success_count], [false] when it adds to [fail_count]. *)
Definition process_row (cycle_id : json) (entry : matched_entry) : M bool :=
  let '(tc_name, tc, att_path) := entry in
  let field k := default JNull (tc !! k) in
  catch
    (do execution_id <- execute_test (field "testcase_id") (field "build_id")
                          cycle_id (field "testscenario_id");
     if negb (truthy execution_id) then ret false
     else upload_attachment (field "testcase_id") cycle_id execution_id att_path)
    (fun e =>
       run log ERROR ("Error processing " ++ tc_name ++ ": " ++ exn_str E e);
       ret false).

(** The execution loop; it returns [(success_count, fail_count)]. *)
Fixpoint execute_rows (cycle_id : json) (matched : list matched_entry)
    (success_count fail_count : nat) : M (nat * nat) :=
  match matched with
  | [] => ret (success_count, fail_count)
  | entry :: rest =>
      do ok <- process_row cycle_id entry;
      if ok : bool then execute_rows cycle_id rest (S success_count) fail_count
      else execute_rows cycle_id rest success_count (S fail_count)
  end.

(** The three numbers of the summary: success, failed, skipped. *)
Definition execute_and_summarise (cycle_id : json)
    (matched : list matched_entry) (skipped : list skipped_entry)
  : M (nat * nat * nat) :=
  do counts <- execute_rows cycle_id matched 0 0;
  ret (fst counts, snd counts, length skipped).

End API.
End TestCycle.

(** ** Vocabulary of the statements *)

(** [s[n:]] *)
Fixpoint slice_from (n : nat) (s : string) : string :=
  match n, s with
  | O, _ => s
  | S n', EmptyString => EmptyString
  | S n', String _ s' => slice_from n' s'
  end.

(** The keys [update_defect] writes itself. *)
Definition overridden : list string :=
  ["status"; "custom_field_11665"; "token"; "project_id"; "id"; "defect_id"].

(** Values that are neither null, nor a list, nor a nested object. *)
Definition scalar (v : json) : Prop :=
  match v with
  | JBool _ | JInt _ | JFloat _ | JStr _ => True
  | _ => False
  end.

(** An environment for closed examples: the service answers every request
    with [200] and an empty JSON object, every path exists and has the
    suffix [.png]. *)
Definition quiet_env : env :=
  {| net := fun _ _ => Response 200 "{}" (Some ∅);
     exn_str := fun _ => "error";
     json_error_is_request_exception := true;
     repr_container := fun _ => "<container>";
     allowed_extensions_repr := "{...}";
     path_exists := fun _ => true;
     path_suffix := fun _ => ".png";
     path_name := fun p => p;
     path_str := fun p => p;
     can_open := fun _ => true |}.

Definition fresh : world := World [] [].

(** The request [update_defect] sends for one entry of [valid]. *)
Definition update_request (E : env) (token : string) (project_id : Z)
    (v : Defect.valid_entry) : request :=
  let '(defect_id, status, rca, defect) := v in
  Request "POST" "/defects/update"
    (FormBody (Defect.update_defect_form E token project_id
                 defect_id status rca defect)).

(** A service that accepts every request with HTTP 200 and reports the
    failure in the body: [{"status": false}]. *)
Definition refusing_env : env :=
  {| net := fun _ _ => Response 200 "{}" (Some (<["status" := JBool false]> ∅));
     exn_str := fun _ => "error";
     json_error_is_request_exception := true;
     repr_container := fun _ => "<container>";
     allowed_extensions_repr := "{...}";
     path_exists := fun _ => true;
     path_suffix := fun _ => ".png";
     path_name := fun p => p;
     path_str := fun p => p;
     can_open := fun _ => true |}.

(** The [status] field of a fetched defect is a [str] when it is present. *)
Definition status_is_text (defect : gmap string json) : Prop :=
  match defect !! "status" with
  | Some (JStr _) | None => True
  | Some _ => False
  end.

(** The two groups of a list of decisions, each in the order of the list. *)
Definition eligible_of (ds : list Defect.decision) : list Defect.valid_entry :=
  omap (fun d => match d with Defect.Eligible v => Some v | _ => None end) ds.
Definition skipped_of (ds : list Defect.decision) : list Defect.skipped_entry :=
  omap (fun d => match d with Defect.Skipped s => Some s | _ => None end) ds.

Definition matched_of (ds : list TestCycle.decision) : list TestCycle.matched_entry :=
  omap (fun d => match d with TestCycle.Eligible m => Some m | _ => None end) ds.
Definition unmatched_of (ds : list TestCycle.decision) : list TestCycle.skipped_entry :=
  omap (fun d => match d with TestCycle.Skipped s => Some s | _ => None end) ds.

(** The identifier a decision carries: the row's [defect_id], respectively
    its [test_case_name]. *)
Definition decision_id (d : Defect.decision) : string :=
  match d with
  | Defect.Eligible (defect_id, _, _, _) => defect_id
  | Defect.Skipped (defect_id, _) => defect_id
  end.
Definition decision_name (d : TestCycle.decision) : string :=
  match d with
  | TestCycle.Eligible (tc_name, _, _) => tc_name
  | TestCycle.Skipped (tc_name, _, _) => tc_name
  end.

(** No test case has a list or an object as its [tc_name]. *)
Definition name_is_hashable (tc : gmap string json) : Prop :=
  match tc !! "tc_name" with
  | Some (JList _) | Some (JDict _) => False
  | _ => True
  end.

(** The test case is called [name]: its [tc_name] is that [str]. *)
Definition has_name (name : string) (tc : gmap string json) : bool :=
  match tc !! "tc_name" with
  | Some (JStr n) => String.eqb n name
  | _ => false
  end.

(** The fetched test cases called [name], in the order of the list. *)
Definition named (name : string) (test_cases : list (gmap string json))
  : list (gmap string json) :=
  List.filter (has_name name) test_cases.

(** The first components of the entries of the two groups. *)
Definition valid_id (v : Defect.valid_entry) : string := fst (fst (fst v)).
Definition matched_name (m : TestCycle.matched_entry) : string := fst (fst m).
Definition unmatched_name (s : TestCycle.skipped_entry) : string := fst (fst s).

(** An environment in which no local file exists. *)
Definition no_files_env : env :=
  {| net := fun _ _ => Response 200 "{}" (Some ∅);
     exn_str := fun _ => "error";
     json_error_is_request_exception := true;
     repr_container := fun _ => "<container>";
     allowed_extensions_repr := "{...}";
     path_exists := fun _ => false;
     path_suffix := fun _ => ".png";
     path_name := fun p => p;
     path_str := fun p => p;
     can_open := fun _ => false |}.

(** Two fetched test cases that share one name. *)
Definition first_android : gmap string json :=
  <["tc_name" := JStr "TC_Android_01"]> (<["testcase_id" := JInt 11]> ∅).
Definition second_android : gmap string json :=
  <["tc_name" := JStr "TC_Android_01"]> (<["testcase_id" := JInt 12]> ∅).

(** Scenario A: three rows, of which one can be closed, one names a defect
    that is closed already, one names an unknown defect. *)
Definition scenario_rows : list Defect.csv_row :=
  [Defect.CsvRow "101" "close" "Code: Bug";
   Defect.CsvRow "102" "Close" "Configuration: Bug";
   Defect.CsvRow "103" "close" "Database issue"].
Definition scenario_defects : gmap string (option (gmap string json)) :=
  <["101" := Some (<["status" := JStr "open"]> ∅)]>
  (<["102" := Some (<["status" := JStr "Close"]> ∅)]>
  (<["103" := None]> ∅)).

Definition android_rows : list TestCycle.csv_row :=
  [TestCycle.CsvRow "TC_Android_01" "Passed" "shot.png";
   TestCycle.CsvRow "TC_Android_02" "passed" "shot.png"].

(** The request [get_defect_details] sends for one defect id. *)
Definition details_request (token : string) (project_id : Z)
    (defect_id : string) : request :=
  Request "GET"
    ("/defects/details?project_id=" ++ pretty project_id
       ++ "&defect_id=" ++ defect_id ++ "&token=" ++ token) NoBody.

(** A failed exchange: no response at all, an HTTP error status, or a body
    that does not parse. *)
Definition failed (t : transport) : Prop :=
  match t with
  | Unreachable => True
  | Response status_code _ body =>
      (400 <= status_code < 600)%Z \/ body = None
  end.

(** What a future of the pool holds: the id it was submitted for and the
    pair [fetch_defect] returned for that id, whose second component is
    [None] when the service fails on that id whatever came before. *)
Definition served (E : env) (token : string) (project_id : Z)
    (did : string) (f : Defect.future) : Prop :=
  exists details,
    f = (did, Ok (did, details)) /\
    ((forall history,
        failed (net E history (details_request token project_id did))) ->
     details = None).

(** The requests of the three list operations. *)
Definition defects_request (token : string) (project_id length : Z) : request :=
  Request "POST" "/defects/list"
    (JsonBody (<["token" := JStr token]>
              (<["project_id" := JInt project_id]>
              (<["length" := JInt length]> ∅)))).
Definition cycles_request (token : string) (project_id : Z) : request :=
  Request "POST" "/cycle/list"
    (JsonBody (<["token" := JStr token]>
              (<["project_id" := JInt project_id]> ∅))).
Definition test_cases_request (token : string) (project_id : Z)
    (cycle_id : json) : request :=
  Request "POST" "/test_case_execution/list"
    (JsonBody (<["token" := JStr token]>
              (<["project_id" := JInt project_id]>
              (<["cycle_id" := cycle_id]>
              (<["length" := JInt 2000]> ∅))))).

(** The requests of the execution loop for one matched row: the execution
    of the test case and the upload of its attachment. *)
Definition execute_request (token : string) (project_id : Z) (cycle_id : json)
    (entry : TestCycle.matched_entry) : request :=
  let tc := snd (fst entry) in
  Request "POST" "/test_case_execution/execute"
    (JsonBody (<["token" := JStr token]>
              (<["project_id" := JInt project_id]>
              (<["cycle_id" := cycle_id]>
              (<["build_id" := default JNull (tc !! "build_id")]>
              (<["tc_id" := default JNull (tc !! "testcase_id")]>
              (<["status" := JStr "Passed"]>
              (<["execute" := JStr "yes"]>
              (<["testscenario_id" := default JNull (tc !! "testscenario_id")]>
                 ∅))))))))).
Definition upload_request (E : env) (token : string) (project_id : Z)
    (cycle_id : json) (entry : TestCycle.matched_entry) (execution_id : json)
  : request :=
  let tc := snd (fst entry) in
  Request "POST" "/test_case_execution/execution_attachments"
    (MultipartBody
       (<["token" := token]>
       (<["project_id" := pretty project_id]>
       (<["cycle_id" := str (repr_container E) cycle_id]>
       (<["testcase_id" := str (repr_container E) (default JNull (tc !! "testcase_id"))]>
       (<["execution_id" := str (repr_container E) execution_id]>
       (<["type" := "tc"]>
       (<["sub_testcase_id" := ""]> ∅)))))))
       (path_name E (snd entry))).

(** The requests one matched row may cause: the execution alone, or the
    execution followed by the upload for the execution id it returned. *)
Definition row_trace (E : env) (token : string) (project_id : Z)
    (cycle_id : json) (entry : TestCycle.matched_entry)
    (trace : list request) : Prop :=
  trace = [execute_request token project_id cycle_id entry] \/
  exists execution_id,
    truthy execution_id = true /\
    trace = [execute_request token project_id cycle_id entry;
             upload_request E token project_id cycle_id entry execution_id].

(** A service that executes every test case and refuses every attachment. *)
Definition flaky_env : env :=
  {| net := fun _ r =>
       if String.eqb (req_endpoint r) "/test_case_execution/execute"
       then Response 200 "{}"
              (Some (<["status" := JBool true]>
                    (<["executed_results" :=
                         JList [JDict (<["id" := JInt 55]> ∅)]]> ∅)))
       else Response 500 "Internal Server Error" None;
     exn_str := fun _ => "error";
     json_error_is_request_exception := true;
     repr_container := fun _ => "<container>";
     allowed_extensions_repr := "{...}";
     path_exists := fun _ => true;
     path_suffix := fun _ => ".png";
     path_name := fun p => p;
     path_str := fun p => p;
     can_open := fun _ => true |}.

(** The last record of the log has level ERROR. *)
Definition error_logged (w : world) : Prop :=
  exists msg, last (errlog w) = Some (ERROR, msg).

(** An environment whose service cannot be reached. *)
Definition down_env : env :=
  {| net := fun _ _ => Unreachable;
     exn_str := fun _ => "error";
     json_error_is_request_exception := true;
     repr_container := fun _ => "<container>";
     allowed_extensions_repr := "{...}";
     path_exists := fun _ => true;
     path_suffix := fun _ => ".png";
     path_name := fun p => p;
     path_str := fun p => p;
     can_open := fun _ => true |}.

(** ** The interactive functions

    The functions behind the menus read their arguments from prompts and
    print their findings.  In the embedding the answers of the user are
    arguments, and what is printed is named by the outcome that is returned.
    Printing is taken to succeed (the texts shown are taken to be free of
    console markup), but for the one cell of a table that is filled with a
    value of the service as it comes.  A [KeyboardInterrupt] is not
    modelled. *)

Module Text.

(** The characters [str.strip()] removes, among the characters below
    U+0100. *)
Definition is_space (c : ascii) : bool :=
  let n := nat_of_ascii c in
  ((9 <=? n)%nat && (n <=? 13)%nat) || ((28 <=? n)%nat && (n <=? 32)%nat)
  || (n =? 133)%nat || (n =? 160)%nat.

Fixpoint lstrip (p : ascii -> bool) (s : string) : string :=
  match s with
  | EmptyString => EmptyString
  | String c s' => if p c then lstrip p s' else s
  end.

Fixpoint rstrip (p : ascii -> bool) (s : string) : string :=
  match s with
  | EmptyString => EmptyString
  | String c s' =>
      match rstrip p s' with
      | EmptyString => if p c then EmptyString else String c EmptyString
      | r => String c r
      end
  end.

(** [s.strip()] is [strip is_space s]; [s.strip(c)] is [strip (Ascii.eqb c) s]. *)
Definition strip (p : ascii -> bool) (s : string) : string :=
  rstrip p (lstrip p s).

(** The clean-up of a path typed or dropped at a prompt. *)
Definition clean_path (csv_file : string) : string :=
  let csv_file := strip is_space csv_file in
  let csv_file :=
    if String.prefix "& " csv_file then slice_from 2 csv_file else csv_file in
  strip (Ascii.eqb "'"%char) (strip (Ascii.eqb "034"%char) csv_file).

End Text.

(** What a bulk run ends with. *)
Inductive bulk_outcome : Type :=
| Cancelled                          (* blank path *)
| FileNotFound
| EmptyCSV
| MissingColumns
| NothingEligible (skipped : nat)    (* preview shown, nothing to do *)
| Declined                           (* preview shown, not confirmed *)
| Summary (success failed skipped : nat)
| Failed (e : exn).                  (* the handler of the function *)

(** A CSV file as [csv.DictReader] reads it: the names of the header and
    the rows, each with its values for the three columns of the variant
    (which are read only after the header has been checked). *)
Record csv_file (row : Type) : Type := CsvFile {
  fieldnames : list string;
  csv_rows : list row
}.
Arguments CsvFile {row} _ _.
Arguments fieldnames {row} _.
Arguments csv_rows {row} _.

(** [required_cols.issubset(set(csv_rows[0].keys()))] *)
Definition has_columns (required_cols names : list string) : bool :=
  forallb (fun c => existsb (String.eqb c) names) required_cols.

Module DefectMenu.

Definition RCA_OPTIONS : list string :=
  ["Application Issues:";
   "Code: Bug";
   "Code: Deployment Issue";
   "Code: Misalignment b/w Prod & Test Lab";
   "Code: Missed during deployment";
   "Configuration: Bug";
   "Configuration: Change";
   "Configuration: Missed";
   "Database issue";
   "Design Issue: Code Change";
   "Design Issue: Design Change";
   "Environment Issues";
   "Infra Issues";
   "Intermittent Connectivity Issues";
   "Production BAU";
   "Req. - NA / OOS";
   "Requirements: Missed";
   "Requirements: New/Change";
   "Retrofit Issue";
   "Service Request (Not Defect)";
   "Test Data: Incorrect test data provided to test team";
   "Test: Duplicate Defect";
   "Test: Incorrect test data used for test";
   "Test: Missed by E2E team";
   "Test: Test Case Error";
   "Test: Test Data issue";
   "Test: Test Device Issue";
   "Test: Test User Error"].

(** The loop that asks for the RCA: the numbers entered, in turn, until one
    is in range; [None] while the loop is still asking. *)
Fixpoint select_rca (selections : list Z) : option string :=
  match selections with
  | [] => None
  | selection :: rest =>
      if ((1 <=? selection) && (selection <=? Z.of_nat (length RCA_OPTIONS)))%Z
      then RCA_OPTIONS !! Z.to_nat (selection - 1)
      else select_rca rest
  end.

Inductive single_outcome : Type :=
| NoId                      (* blank defect id *)
| NoDefect                  (* No defect found with ID *)
| AlreadyClosed
| StillAsking               (* the RCA loop has no answer in range yet *)
| NotConfirmed
| Updated (success : bool)
| Crashed (e : exn).        (* the handler of the function *)

Section Menu.
Variable E : env.
Variable token : string.
Variable project_id : Z.

(** [update_single_defect]; [defect_id], [selections] and [confirm] are
    what the three prompts return. *)
Definition update_single_defect (defect_id : string) (selections : list Z)
    (confirm : string) : M single_outcome :=
  catch
    (if String.eqb defect_id "" then ret NoId
     else
       do fetched <- Defect.get_defect_details E token project_id defect_id;
       match fetched with
       | None => ret NoDefect
       | Some defect =>
           if negb (dict_truthy defect) then ret NoDefect
           else
             do current_status <- lift (Defect.current_status defect);
             if String.eqb current_status "close" then ret AlreadyClosed
             else
               match select_rca selections with
               | None => ret StillAsking
               | Some rca =>
                   if negb (String.eqb (lower confirm) "y") then ret NotConfirmed
                   else
                     do success <- Defect.update_defect E token project_id
                                     defect_id "close" rca defect;
                     ret (Updated success)
               end
       end)
    (fun e =>
       run log ERROR ("Error updating defect: " ++ exn_str E e);
       ret (Crashed e)).

(** The cell of the preview that shows [defect.get('uc_status', 'N/A')]:
    the table takes a [str] or [None] and refuses any other value (with
    its own exception, filed here under [TypeError]). *)
Definition preview_cell (defect : gmap string json) : result unit :=
  match defect !! "uc_status" with
  | None | Some (JStr _) | Some JNull => Ok tt
  | Some _ => Raise TypeError
  end.

Fixpoint preview (valid : list Defect.valid_entry) : result unit :=
  match valid with
  | [] => Ok tt
  | (_, _, _, defect) :: rest => rbind (preview_cell defect) (fun _ => preview rest)
  end.

(** [update_bulk_defects].  [read_csv] is the content of the file at a
    path, [pool] the run of [get_multiple_defects] for a list of ids;
    [csv_file] and [confirm] are what the two prompts return. *)
Definition update_bulk_defects
    (read_csv : string -> result (csv_file Defect.csv_row))
    (pool : list string -> M (gmap string (option (gmap string json))))
    (csv_file confirm : string) : M bulk_outcome :=
  catch
    (if String.eqb csv_file "" then ret Cancelled
     else
       let csv_file := Text.clean_path csv_file in
       if negb (path_exists E csv_file) then ret FileNotFound
       else
         do csv <- lift (read_csv csv_file);
         match csv_rows csv with
         | [] => ret EmptyCSV
         | _ =>
             if negb (has_columns ["defect_id"; "status"; "RCA"] (fieldnames csv))
             then ret MissingColumns
             else
               let defect_ids := map Defect.row_defect_id (csv_rows csv) in
               do defects_data <- pool defect_ids;
               do groups <- lift (Defect.validate defects_data (csv_rows csv));
               let valid := fst groups in
               let skipped := snd groups in
               run lift (preview valid);
               match valid with
               | [] => ret (NothingEligible (length skipped))
               | _ =>
                   if negb (String.eqb (lower confirm) "yes") then ret Declined
                   else
                     do counts <- Defect.execute_and_summarise E token project_id
                                    valid skipped;
                     ret (Summary (fst (fst counts)) (snd (fst counts)) (snd counts))
               end
         end)
    (fun e =>
       run log ERROR ("Error in bulk update: " ++ exn_str E e);
       ret (Failed e)).

End Menu.
End DefectMenu.

Module TestCycleMenu.

(** The summary cell of the table of test cases in [show_cycle_menu]. *)
Definition summary_cell (summary : string) : string :=
  if (50 <? String.length summary)%nat
  then slice_to 22 summary ++ "..." ++ slice_last 22 summary
  else summary.

(** [test_cases[choice - 1]] behind the check of [choice]. *)
Definition selected {A} (items : list A) (choice : Z) : option A :=
  if ((choice <? 1) || (Z.of_nat (length items) <? choice))%Z then None
  else items !! Z.to_nat (choice - 1).

Inductive single_outcome : Type :=
| NoChoice                  (* 0 entered *)
| InvalidSelection
| AttachmentNotFound
| InvalidFileType
| ExecutionFailed
| Executed (upload_success : bool)
| Crashed (e : exn).        (* the handler of the function *)

Section Menu.
Variable E : env.
Variable token : string.
Variable project_id : Z.

(** [execute_single_from_list]; [choice] and [attachment_path] are what
    the two prompts return. *)
Definition execute_single_from_list (cycle_id : json)
    (test_cases : list (gmap string json)) (choice : Z)
    (attachment_path : string) : M single_outcome :=
  catch
    (if (choice =? 0)%Z then ret NoChoice
     else
       match selected test_cases choice with
       | None => ret InvalidSelection
       | Some test_case =>
           let field k := default JNull (test_case !! k) in
           let attachment_path := Text.clean_path attachment_path in
           if negb (path_exists E attachment_path) then ret AttachmentNotFound
           else if negb (TestCycle.allowed (TestCycle.extension E attachment_path))
           then ret InvalidFileType
           else
             do execution_id <- TestCycle.execute_test E token project_id
                                  (field "testcase_id") (field "build_id")
                                  cycle_id (field "testscenario_id");
             if negb (truthy execution_id) then ret ExecutionFailed
             else
               do upload_success <- TestCycle.upload_attachment E token project_id
                                      (field "testcase_id") cycle_id execution_id
                                      attachment_path;
               ret (Executed upload_success)
       end)
    (fun e =>
       run log ERROR ("Error executing test: " ++ exn_str E e);
       ret (Crashed e)).

(** [execute_all_from_csv].  [read_csv] is the content of the file at a
    path; [csv_file] and [confirmed] are what the prompt and [Confirm.ask]
    return. *)
Definition execute_all_from_csv
    (read_csv : string -> result (csv_file TestCycle.csv_row))
    (cycle_id : json) (test_cases : list (gmap string json))
    (csv_file : string) (confirmed : bool) : M bulk_outcome :=
  catch
    (if String.eqb csv_file "" then ret Cancelled
     else
       let csv_file := Text.clean_path csv_file in
       if negb (path_exists E csv_file) then ret FileNotFound
       else
         do csv <- lift (read_csv csv_file);
         match csv_rows csv with
         | [] => ret EmptyCSV
         | _ =>
             if negb (has_columns ["test_case_name"; "status"; "attachment"]
                        (fieldnames csv))
             then ret MissingColumns
             else
               do groups <- lift (TestCycle.validate E test_cases (csv_rows csv));
               let matched := fst groups in
               let skipped := snd groups in
               match matched with
               | [] => ret (NothingEligible (length skipped))
               | _ =>
                   if negb confirmed then ret Declined
                   else
                     do counts <- TestCycle.execute_and_summarise E token project_id
                                    cycle_id matched skipped;
                     ret (Summary (fst (fst counts)) (snd (fst counts)) (snd counts))
               end
         end)
    (fun e =>
       run log ERROR ("Error in bulk execution: " ++ exn_str E e);
       ret (Failed e)).

End Menu.
End TestCycleMenu.

(** ** Vocabulary of the further statements *)

(** The request of [execute_test] and of [upload_attachment], for any
    arguments. *)
Definition execute_test_request (token : string) (project_id : Z)
    (tc_id build_id cycle_id testscenario_id : json) : request :=
  Request "POST" "/test_case_execution/execute"
    (JsonBody (<["token" := JStr token]>
              (<["project_id" := JInt project_id]>
              (<["cycle_id" := cycle_id]>
              (<["build_id" := build_id]>
              (<["tc_id" := tc_id]>
              (<["status" := JStr "Passed"]>
              (<["execute" := JStr "yes"]>
              (<["testscenario_id" := testscenario_id]> ∅))))))))).
Definition attachment_request (E : env) (token : string) (project_id : Z)
    (testcase_id cycle_id execution_id : json) (file_path : string) : request :=
  Request "POST" "/test_case_execution/execution_attachments"
    (MultipartBody
       (<["token" := token]>
       (<["project_id" := pretty project_id]>
       (<["cycle_id" := str (repr_container E) cycle_id]>
       (<["testcase_id" := str (repr_container E) testcase_id]>
       (<["execution_id" := str (repr_container E) execution_id]>
       (<["type" := "tc"]>
       (<["sub_testcase_id" := ""]> ∅)))))))
       (path_name E file_path)).

(** A service that answers every request with a status and one body. *)
Definition answering (status_code : Z) (body : gmap string json) : env :=
  {| net := fun _ _ => Response status_code "{}" (Some body);
     exn_str := fun _ => "error";
     json_error_is_request_exception := true;
     repr_container := fun _ => "<container>";
     allowed_extensions_repr := "{...}";
     path_exists := fun _ => true;
     path_suffix := fun _ => ".png";
     path_name := fun p => p;
     path_str := fun p => p;
     can_open := fun _ => true |}.

(** The first and the last character of a text. *)
Definition first_char (s : string) : option ascii :=
  match s with
  | EmptyString => None
  | String c _ => Some c
  end.
Fixpoint last_char (s : string) : option ascii :=
  match s with
  | EmptyString => None
  | String c EmptyString => Some c
  | String _ s' => last_char s'
  end.

(** Characters that the clean-up of a path removes at the ends. *)
Definition edge_char (c : ascii) : bool :=
  Text.is_space c || Ascii.eqb "034"%char c || Ascii.eqb "'"%char c.

(** A path that the clean-up leaves alone: no blank and no quote at either
    end, and not the PowerShell call operator in front. *)
Definition plain_path (p : string) : Prop :=
  (forall c, first_char p = Some c -> edge_char c = false) /\
  (forall c, last_char p = Some c -> edge_char c = false) /\
  String.prefix "& " p = false.

(** A number that the RCA prompt accepts. *)
Definition in_range (selection : Z) : Prop :=
  (1 <= selection <= Z.of_nat (length DefectMenu.RCA_OPTIONS))%Z.

(** The service has answered the request for the details of [did] with
    [body], after some history, with a status outside 400-599. *)
Definition answered (E : env) (token : string) (project_id : Z)
    (did : string) (body : gmap string json) : Prop :=
  exists history status_code text,
    net E history (details_request token project_id did)
      = Response status_code text (Some body) /\
    ~ (400 <= status_code < 600)%Z.

(** A future of the pool holds the id it was submitted for and, when it
    holds a defect, one that the service has sent for that id. *)
Definition genuine (E : env) (token : string) (project_id : Z)
    (did : string) (f : Defect.future) : Prop :=
  exists details,
    f = (did, Ok (did, details)) /\
    (forall body, details = Some body -> answered E token project_id did body).

(** The pool that runs the fetches one after the other, in the order of
    the list. *)
Definition sequential_pool (E : env) (token : string) (project_id : Z)
    (defect_ids : list string) : M (gmap string (option (gmap string json))) :=
  fun w => match Defect.run_workers E token project_id defect_ids w with
           | (w', Ok fetched) => (w', Ok (Defect.collect fetched))
           | (w', Raise e) => (w', Raise e)
           end.

(** Files and services for closed examples. *)
Definition scenario_csv : csv_file Defect.csv_row :=
  CsvFile ["defect_id"; "status"; "RCA"] scenario_rows.
Definition android_csv : csv_file TestCycle.csv_row :=
  CsvFile ["test_case_name"; "status"; "attachment"] android_rows.
Definition open_defect : gmap string json :=
  <["status" := JStr "open"]> (<["uc_status" := JStr "Open"]> ∅).
Definition listed_defects : gmap string json :=
  <["data" := JList [JDict open_defect]]> ∅.

(** ** Strings *)

Lemma substring_from n m s : substring n m s = substring 0 m (slice_from n s).
Proof.
  revert s; induction n as [|n IH]; intros [|c s]; simpl; auto.
  destruct m; reflexivity.
Qed.

Lemma append_String c s t : String c s ++ t = String c (s ++ t).
Proof. reflexivity. Qed.

Lemma slice_split n s : s = substring 0 n s ++ slice_from n s.
Proof.
  revert s; induction n as [|n IH]; intros [|c s]; simpl; auto.
  rewrite append_String. f_equal. apply IH.
Qed.

Lemma length_slice_to n s :
  (n <= String.length s)%nat -> String.length (substring 0 n s) = n.
Proof.
  revert s; induction n as [|n IH]; intros [|c s]; simpl; intros H;
    try reflexivity; try lia.
  f_equal. apply IH. lia.
Qed.

Lemma length_slice_from n s :
  String.length (slice_from n s) = (String.length s - n)%nat.
Proof.
  revert s; induction n as [|n IH]; intros [|c s]; simpl; auto.
Qed.

Lemma slice_from_add n m s : slice_from (n + m) s = slice_from m (slice_from n s).
Proof.
  revert s; induction n as [|n IH]; intros [|c s]; simpl; auto.
  destruct m; reflexivity.
Qed.

Lemma substring_all n s :
  (String.length s <= n)%nat -> substring 0 n s = s.
Proof.
  revert s; induction n as [|n IH]; intros [|c s]; simpl; intros H;
    try reflexivity; try lia.
  f_equal. apply IH. lia.
Qed.

Lemma mask_long token :
  (8 < String.length token)%nat ->
  exists first middle last,
    token = first ++ middle ++ last /\
    String.length first = 4%nat /\ String.length last = 4%nat /\
    Defect.mask_token token = first ++ "..." ++ last.
Proof.
  intros Hlen.
  set (n := String.length token) in *.
  exists (substring 0 4 token),
         (substring 0 (n - 8) (slice_from 4 token)),
         (slice_from (n - 4) token).
  assert (Hlast : slice_from (n - 4) token
                  = slice_from (n - 8) (slice_from 4 token)).
  { rewrite <- slice_from_add. f_equal. lia. }
  repeat split.
  - rewrite Hlast, <- slice_split. apply slice_split.
  - apply length_slice_to. fold n. lia.
  - rewrite length_slice_from. fold n. lia.
  - unfold Defect.mask_token. fold n.
    destruct (Nat.leb_spec n 8) as [Hle|_]; [lia|].
    unfold slice_to, slice_last. fold n.
    rewrite (substring_from (n - 4)),
      (substring_all 4 (slice_from (n - 4) token)); [reflexivity|].
    rewrite length_slice_from. fold n. lia.
Qed.

(** C9.  [mask_token], in both modules, returns ["****"] for a token of at
    most 8 characters; for a longer token it returns the first 4 characters
    of the token, then ["..."], then its last 4 characters; the token
    ["abcd1234efgh"] is masked as ["abcd...efgh"]. *)
Theorem mask_token_spec (token : string) :
  ((String.length token <= 8)%nat ->
     Defect.mask_token token = "****" /\ TestCycle.mask_token token = "****") /\
  ((8 < String.length token)%nat ->
     exists first middle last,
       token = first ++ middle ++ last /\
       String.length first = 4%nat /\ String.length last = 4%nat /\
       Defect.mask_token token = first ++ "..." ++ last /\
       TestCycle.mask_token token = first ++ "..." ++ last) /\
  Defect.mask_token "abcd1234efgh" = "abcd...efgh" /\
  TestCycle.mask_token "abcd1234efgh" = "abcd...efgh".
Proof.
  split; [|split; [|split; reflexivity]].
  - intros Hlen. unfold TestCycle.mask_token, Defect.mask_token.
    destruct (Nat.leb_spec (String.length token) 8); [auto|lia].
  - intros Hlen. destruct (mask_long token Hlen) as (f & m & l & H1 & H2 & H3 & H4).
    exists f, m, l. change (TestCycle.mask_token token) with (Defect.mask_token token).
    auto.
Qed.

Lemma mask_token_spec_witness :
  (Defect.mask_token "12345678" = "****" /\ TestCycle.mask_token "12345678" = "****") /\
  exists first middle last,
    "secret-token-0001" = first ++ middle ++ last /\
    String.length first = 4%nat /\ String.length last = 4%nat /\
    Defect.mask_token "secret-token-0001" = first ++ "..." ++ last /\
    TestCycle.mask_token "secret-token-0001" = first ++ "..." ++ last.
Proof.
  split.
  - apply (proj1 (mask_token_spec "12345678")). simpl. lia.
  - apply (proj1 (proj2 (mask_token_spec "secret-token-0001"))). simpl. lia.
Defined.

(** ** [update_defect] *)

Ltac conjs := repeat match goal with |- _ /\ _ => split end.

(** A leaf of a case analysis in which the call has failed softly. *)
Ltac soft_leaf :=
  do 2 eexists; split; [reflexivity|]; intros _; split; [reflexivity|];
  simpl; rewrite last_snoc; eauto.

Ltac monad :=
  unfold bind, ret, throw, catch, lift, log, send in *; simpl in *.

Section UpdateDefect.
Variable E : env.
Variable token : string.
Variable project_id : Z.

Local Abbreviation form_value := (Defect.form_value E).
Local Abbreviation update_defect_form := (Defect.update_defect_form E token project_id).
Local Abbreviation update_defect := (Defect.update_defect E token project_id).

(** The copy loop stores exactly the fields [form_value] keeps. *)
Lemma copy_loop_lookup (defect_data : gmap string json) (key : string) :
  map_fold (fun key value (form_data : gmap string string) =>
              match form_value value with
              | Some s => <[key := s]> form_data
              | None => form_data
              end) ∅ defect_data !! key
  = defect_data !! key ≫= form_value.
Proof.
  revert key. apply (map_fold_weak_ind (fun r m => forall key, r !! key = m !! key ≫= form_value)).
  - intros key. by rewrite !lookup_empty.
  - intros i x m r Hi IH key.
    destruct (decide (i = key)) as [->|Hne].
    + rewrite lookup_insert_eq. simpl.
      destruct (form_value x) as [s|] eqn:Hx.
      * by rewrite lookup_insert_eq.
      * by rewrite IH, Hi.
    + rewrite (lookup_insert_ne m) by done.
      destruct (form_value x) as [s|]; [rewrite lookup_insert_ne by done|]; apply IH.
Qed.

Lemma form_lookup_other defect_id status rca defect_data key :
  key ∉ overridden ->
  update_defect_form defect_id status rca defect_data !! key
  = defect_data !! key ≫= form_value.
Proof.
  intros Hkey. unfold Defect.update_defect_form, overridden in *.
  rewrite !lookup_insert_ne by set_solver.
  apply copy_loop_lookup.
Qed.

(** [update_defect] sends one request, the form, and does not raise. *)
Lemma update_defect_runs defect_id status rca defect_data w :
  exists ok w',
    update_defect defect_id status rca defect_data w = (w', Ok ok) /\
    sent w' = (sent w ++ [update_request E token project_id
                            (defect_id, status, rca, defect_data)])%list.
Proof.
  unfold Defect.update_defect, Defect._request. monad.
  destruct (net E _ _) as [|code text body]; simpl.
  - destruct (json_error_is_request_exception E); simpl; do 2 eexists; split; reflexivity.
  - destruct (code =? 200)%Z; simpl.
    + destruct body; simpl; [do 2 eexists; split; reflexivity|].
      destruct (json_error_is_request_exception E); simpl;
        do 2 eexists; split; reflexivity.
    + destruct (raise_for_status code) eqn:Hr; simpl.
      * destruct body; simpl; [do 2 eexists; split; reflexivity|].
        destruct (json_error_is_request_exception E); simpl;
          do 2 eexists; split; reflexivity.
      * destruct (is_request_exception E e); simpl;
          do 2 eexists; split; reflexivity.
Qed.

(** C1.  The form [update_defect] submits carries every field of the
    snapshot whose key is not one of the keys written by [update_defect]
    itself: a null as the empty string, a list as the comma-join of the
    [str] of its elements (the empty list as the empty string), every other
    value except a nested object as its [str]; a nested object is left out,
    and no other key is added.  The keys written by [update_defect] hold
    the new status, the RCA, the token, the project id and the defect id. *)
Theorem update_defect_form_preserves_fields
    (defect_id status rca : string) (defect_data : gmap string json)
    (w : world) (key : string) :
  key ∉ overridden ->
  let form := update_defect_form defect_id status rca defect_data in
  sent (fst (update_defect defect_id status rca defect_data w))
    = (sent w ++ [Request "POST" "/defects/update" (FormBody form)])%list /\
  (defect_data !! key = None -> form !! key = None) /\
  (defect_data !! key = Some JNull -> form !! key = Some "") /\
  (forall l, defect_data !! key = Some (JList l) ->
     form !! key = Some (join "," (map (str (repr_container E)) l)) /\
     (l = [] -> form !! key = Some "")) /\
  (forall d, defect_data !! key = Some (JDict d) -> form !! key = None) /\
  (forall v, defect_data !! key = Some v -> scalar v ->
     form !! key = Some (str (repr_container E) v)) /\
  form !! "status" = Some status /\
  form !! "custom_field_11665" = Some rca /\
  form !! "token" = Some token /\
  form !! "project_id" = Some (pretty project_id) /\
  form !! "id" = Some defect_id /\
  form !! "defect_id" = Some defect_id.
Proof.
  intros Hkey form.
  assert (Hform : form !! key = defect_data !! key ≫= form_value)
    by (apply form_lookup_other; exact Hkey).
  split.
  { destruct (update_defect_runs defect_id status rca defect_data w)
      as (ok & w' & Hrun & Hsent).
    rewrite Hrun. exact Hsent. }
  repeat apply conj.
  - intros H. by rewrite Hform, H.
  - intros H. by rewrite Hform, H.
  - intros l H. rewrite Hform, H. simpl. split; [by destruct l|by intros ->].
  - intros d H. by rewrite Hform, H.
  - intros v H Hv. rewrite Hform, H. by destruct v.
  - unfold form, Defect.update_defect_form.
    rewrite !lookup_insert_ne by done. apply lookup_insert_eq.
  - unfold form, Defect.update_defect_form.
    rewrite !lookup_insert_ne by done. apply lookup_insert_eq.
  - unfold form, Defect.update_defect_form.
    rewrite !lookup_insert_ne by done. apply lookup_insert_eq.
  - unfold form, Defect.update_defect_form.
    rewrite !lookup_insert_ne by done. apply lookup_insert_eq.
  - unfold form, Defect.update_defect_form.
    rewrite !lookup_insert_ne by done. apply lookup_insert_eq.
  - unfold form, Defect.update_defect_form. apply lookup_insert_eq.
Qed.

(** C10.  When the POST to [/defects/update] is answered with status 200
    and a body that parses, [update_defect] returns [True] whatever the
    body says, and the bulk loop counts the row as a success. *)
Theorem update_defect_ignores_response_body
    (defect_id status rca : string) (defect_data : gmap string json)
    (skipped : list Defect.skipped_entry) (w : world)
    (text : string) (body : gmap string json) :
  net E (sent w) (update_request E token project_id
                    (defect_id, status, rca, defect_data))
    = Response 200 text (Some body) ->
  snd (update_defect defect_id status rca defect_data w) = Ok true /\
  snd (Defect.execute_and_summarise E token project_id
         [(defect_id, status, rca, defect_data)] skipped w)
    = Ok (1, 0, length skipped)%nat.
Proof.
  intros Hnet. simpl in Hnet.
  assert (Hupd : exists w', update_defect defect_id status rca defect_data w
                            = (w', Ok true)).
  { unfold Defect.update_defect, Defect._request. monad.
    rewrite Hnet. simpl. eauto. }
  destruct Hupd as [w' Hupd]. split.
  - by rewrite Hupd.
  - unfold Defect.execute_and_summarise. simpl. unfold bind at 1 2.
    rewrite Hupd. reflexivity.
Qed.

End UpdateDefect.

Lemma update_defect_form_preserves_fields_witness :
  let form := Defect.update_defect_form quiet_env "abcd1234efgh" 7 "265744"
                "close" "Code: Bug"
                (<["tags" := JList [JStr "a"; JStr "b"]]>
                 (<["notes" := JNull]>
                 (<["build" := JDict (<["name" := JStr "b1"]> ∅)]>
                 (<["severity" := JInt 3]>
                 (<["status" := JStr "open"]> ∅))))) in
  form !! "tags" = Some "a,b" /\
  form !! "notes" = Some "" /\
  form !! "build" = None /\
  form !! "severity" = Some "3".
Proof.
  set (d := <["tags" := JList [JStr "a"; JStr "b"]]>
            (<["notes" := JNull]>
            (<["build" := JDict (<["name" := JStr "b1"]> ∅)]>
            (<["severity" := JInt 3]>
            (<["status" := JStr "open"]> (∅ : gmap string json)))))).
  pose proof (fun key H => update_defect_form_preserves_fields quiet_env
                "abcd1234efgh" 7 "265744" "close" "Code: Bug" d fresh key H) as T.
  simpl. repeat apply conj.
  - destruct (T "tags" ltac:(compute_done)) as (_ & _ & _ & Hl & _).
    apply (Hl [JStr "a"; JStr "b"]). reflexivity.
  - destruct (T "notes" ltac:(compute_done)) as (_ & _ & Hn & _).
    apply Hn. reflexivity.
  - destruct (T "build" ltac:(compute_done)) as (_ & _ & _ & _ & Hd & _).
    apply (Hd (<["name" := JStr "b1"]> ∅)). reflexivity.
  - destruct (T "severity" ltac:(compute_done)) as (_ & _ & _ & _ & _ & Hv & _).
    apply (Hv (JInt 3)); [reflexivity|exact I].
Defined.

Lemma update_defect_ignores_response_body_witness :
  snd (Defect.update_defect refusing_env "abcd1234efgh" 7 "265744" "close"
         "Code: Bug" (<["status" := JStr "open"]> ∅) fresh) = Ok true /\
  snd (Defect.execute_and_summarise refusing_env "abcd1234efgh" 7
         [("265744", "close", "Code: Bug", <["status" := JStr "open"]> ∅)]
         [("265745", "Already closed")] fresh)
    = Ok (1, 0, 1)%nat.
Proof.
  apply (update_defect_ignores_response_body refusing_env "abcd1234efgh" 7
           "265744" "close" "Code: Bug" (<["status" := JStr "open"]> ∅)
           [("265745", "Already closed")] fresh
           "{}" (<["status" := JBool false]> ∅)).
  reflexivity.
Defined.

(** ** Validation of the defect CSV *)

Section DefectValidation.
Variable defects_data : gmap string (option (gmap string json)).

Local Abbreviation check_row := (Defect.check_row defects_data).

Lemma found_defect_spec defect_id defect :
  Defect.found_defect defects_data defect_id = Some defect <->
  defects_data !! defect_id = Some (Some defect) /\ defect ≠ ∅.
Proof.
  unfold Defect.found_defect, dict_truthy.
  destruct (defects_data !! defect_id) as [[d|]|]; try (split; [discriminate|intros [? _]; discriminate]).
  destruct (Nat.eqb_spec (size d) 0) as [Hz|Hnz]; simpl.
  - apply map_size_empty_iff in Hz. subst d.
    split; [discriminate|]. intros [[= <-] Hne]. by destruct Hne.
  - split.
    + intros [= <-]. split; [done|]. intros ->. by rewrite map_size_empty in Hnz.
    + by intros [[= <-] _].
Qed.

Lemma current_status_total defect :
  status_is_text defect -> exists s, Defect.current_status defect = Ok s.
Proof.
  unfold status_is_text, Defect.current_status.
  destruct (defect !! "status") as [[]|]; simpl; intros H; try done; eauto.
Qed.

Lemma close_eqb s : String.eqb s "close" = true <-> s = "close".
Proof. apply String.eqb_eq. Qed.

(** With a textual status on the fetched defect the loop body returns. *)
Lemma check_row_total (row : Defect.csv_row) :
  (forall defect,
     defects_data !! Defect.row_defect_id row = Some (Some defect) ->
     status_is_text defect) ->
  (exists v, check_row row = Ok (Defect.Eligible v)) \/
  (exists reason,
     check_row row = Ok (Defect.Skipped (Defect.row_defect_id row, reason))).
Proof.
  intros Hty. unfold Defect.check_row.
  destruct (negb _); [eauto|].
  destruct (Defect.found_defect _ _) as [defect|] eqn:Hf; [|eauto].
  apply found_defect_spec in Hf as [Hget _].
  destruct (current_status_total defect (Hty _ Hget)) as [cur ->]. simpl.
  destruct (String.eqb cur "close"); eauto.
Qed.


Lemma check_row_id row d :
  check_row row = Ok d -> decision_id d = Defect.row_defect_id row.
Proof.
  unfold Defect.check_row.
  destruct (negb _); [by intros [= <-]|].
  destruct (Defect.found_defect _ _) as [defect|]; [|by intros [= <-]].
  destruct (Defect.current_status defect) as [cur|]; [|done]. simpl.
  destruct (String.eqb cur "close"); by intros [= <-].
Qed.

End DefectValidation.

(** ** The validation loops *)

Lemma groups_length (ds : list Defect.decision) :
  (length (eligible_of ds) + length (skipped_of ds) = length ds)%nat.
Proof.
  induction ds as [|[v|s] ds IH]; simpl; [reflexivity| |];
    unfold eligible_of, skipped_of in *; simpl; lia.
Qed.

Lemma eligible_in_order (ds : list Defect.decision) :
  map valid_id (eligible_of ds) `sublist_of` map decision_id ds.
Proof.
  induction ds as [|[[[[id st] rca] d]|[id r]] ds IH]; simpl.
  - constructor.
  - unfold eligible_of; simpl. by apply sublist_skip.
  - unfold eligible_of; simpl. by apply sublist_cons.
Qed.

Lemma skipped_in_order (ds : list Defect.decision) :
  map fst (skipped_of ds) `sublist_of` map decision_id ds.
Proof.
  induction ds as [|[[[[id st] rca] d]|[id r]] ds IH]; simpl.
  - constructor.
  - unfold skipped_of; simpl. by apply sublist_cons.
  - unfold skipped_of; simpl. by apply sublist_skip.
Qed.

Lemma defect_loop_decisions defects_data rows ds valid skipped :
  Forall2 (fun row d => Defect.check_row defects_data row = Ok d) rows ds ->
  Defect.validate_loop defects_data rows valid skipped
  = Ok ((valid ++ eligible_of ds)%list, (skipped ++ skipped_of ds)%list).
Proof.
  intros H. revert valid skipped.
  induction H as [|row d rows ds Hd _ IH]; intros valid skipped; simpl.
  - by rewrite !app_nil_r.
  - rewrite Hd. simpl. destruct d as [v|s]; rewrite IH.
    + unfold eligible_of, skipped_of; simpl. by rewrite <- app_assoc.
    + unfold eligible_of, skipped_of; simpl. by rewrite <- app_assoc.
Qed.

Lemma defect_decisions_exist defects_data rows :
  (forall defect_id defect, defects_data !! defect_id = Some (Some defect) ->
     status_is_text defect) ->
  exists ds, Forall2 (fun row d => Defect.check_row defects_data row = Ok d) rows ds.
Proof.
  intros Hty. induction rows as [|row rows [ds IH]].
  - exists []. constructor.
  - destruct (check_row_total defects_data row) as [[v Hv]|[r Hr]];
      [intros d; apply Hty| |]; eexists (_ :: ds); constructor; eauto.
Qed.

Lemma matched_groups_length (ds : list TestCycle.decision) :
  (length (matched_of ds) + length (unmatched_of ds) = length ds)%nat.
Proof.
  induction ds as [|[v|s] ds IH]; simpl; [reflexivity| |];
    unfold matched_of, unmatched_of in *; simpl; lia.
Qed.

Lemma matched_in_order (ds : list TestCycle.decision) :
  map matched_name (matched_of ds) `sublist_of` map decision_name ds.
Proof.
  induction ds as [|[[[n tc] a]|[[n r] a]] ds IH]; simpl.
  - constructor.
  - unfold matched_of; simpl. by apply sublist_skip.
  - unfold matched_of; simpl. by apply sublist_cons.
Qed.

Lemma unmatched_in_order (ds : list TestCycle.decision) :
  map unmatched_name (unmatched_of ds) `sublist_of` map decision_name ds.
Proof.
  induction ds as [|[[[n tc] a]|[[n r] a]] ds IH]; simpl.
  - constructor.
  - unfold unmatched_of; simpl. by apply sublist_cons.
  - unfold unmatched_of; simpl. by apply sublist_skip.
Qed.

Lemma test_loop_decisions E lookup rows matched skipped :
  TestCycle.validate_loop E lookup rows matched skipped
  = ((matched ++ matched_of (map (TestCycle.check_row E lookup) rows))%list,
     (skipped ++ unmatched_of (map (TestCycle.check_row E lookup) rows))%list).
Proof.
  revert matched skipped.
  induction rows as [|row rows IH]; intros matched skipped; simpl.
  - by rewrite !app_nil_r.
  - destruct (TestCycle.check_row E lookup row) as [m|s]; rewrite IH;
      unfold matched_of, unmatched_of; simpl; by rewrite <- app_assoc.
Qed.

Lemma test_check_row_name E lookup row :
  decision_name (TestCycle.check_row E lookup row) = TestCycle.row_test_case_name row.
Proof.
  unfold TestCycle.check_row.
  destruct (negb (String.eqb _ _)); [done|].
  destruct (lookup !! _); [|done].
  destruct (negb (path_exists _ _)); [done|].
  by destruct (negb (TestCycle.allowed _)).
Qed.

(** The dict built from the fetched test cases maps a name to the last
    test case of the list that carries it. *)
Lemma lookup_add_Ok lookup0 tc :
  TestCycle.lookup_add (Ok lookup0) tc
  = match tc !! "tc_name" with
    | Some (JStr name) => Ok (<[name := tc]> lookup0)
    | Some (JList _) | Some (JDict _) => Raise TypeError
    | _ => Ok lookup0
    end.
Proof. reflexivity. Qed.

Lemma lookup_add_Raise test_cases e :
  fold_left TestCycle.lookup_add test_cases (Raise e) = Raise e.
Proof. induction test_cases; simpl; auto. Qed.

Lemma test_lookup_fold test_cases lookup0 lookup name :
  fold_left TestCycle.lookup_add test_cases (Ok lookup0) = Ok lookup ->
  lookup !! name = match last (named name test_cases) with
                   | Some tc => Some tc
                   | None => lookup0 !! name
                   end.
Proof.
  revert lookup0. induction test_cases as [|tc tcs IH]; intros lookup0.
  - by intros [= <-].
  - cbn [fold_left]. rewrite lookup_add_Ok. unfold named, has_name in *. simpl.
    destruct (tc !! "tc_name") as [[| | | |n| |]|] eqn:Hn;
      try (intros H; apply IH in H; exact H);
      try (rewrite lookup_add_Raise; discriminate).
    intros H. apply IH in H. rewrite H.
    destruct (String.eqb_spec n name) as [->|Hne]; simpl.
    + destruct (List.filter _ tcs) as [|tc' l] eqn:Hl; simpl.
      * by rewrite lookup_insert_eq.
      * by destruct (last (tc' :: l)) eqn:Hlast; [|apply last_None in Hlast].
    + destruct (last _); [done|]. by rewrite lookup_insert_ne.
Qed.

Lemma test_lookup_spec test_cases lookup name :
  TestCycle.test_lookup test_cases = Ok lookup ->
  lookup !! name = last (named name test_cases).
Proof.
  intros H. apply (test_lookup_fold _ _ _ name) in H. rewrite H.
  destruct (last _); [done|]. apply lookup_empty.
Qed.

Lemma test_lookup_total test_cases :
  Forall name_is_hashable test_cases ->
  exists lookup, TestCycle.test_lookup test_cases = Ok lookup.
Proof.
  intros H. unfold TestCycle.test_lookup.
  generalize (∅ : gmap string (gmap string json)).
  induction H as [|tc tcs Htc _ IH]; intros lookup0; [simpl; eauto|].
  cbn [fold_left]. rewrite lookup_add_Ok. unfold name_is_hashable in Htc.
  destruct (tc !! "tc_name") as [[]|]; try done; apply IH.
Qed.


Lemma scenario_defects_typed defect_id defect :
  scenario_defects !! defect_id = Some (Some defect) -> status_is_text defect.
Proof.
  unfold scenario_defects. intros H.
  destruct (decide (defect_id = "101")) as [->|H1].
  { rewrite lookup_insert_eq in H. injection H as <-. exact I. }
  rewrite lookup_insert_ne in H by done.
  destruct (decide (defect_id = "102")) as [->|H2].
  { rewrite lookup_insert_eq in H. injection H as <-. exact I. }
  rewrite lookup_insert_ne in H by done.
  destruct (decide (defect_id = "103")) as [->|H3].
  { rewrite lookup_insert_eq in H. discriminate. }
  rewrite lookup_insert_ne in H by done. by rewrite lookup_empty in H.
Defined.



(** ** Rows of the test-execution CSV *)

Lemma reason_differs (rest : string) (c c' : ascii) (s s' : string) :
  c ≠ c' -> String c s ++ rest ≠ String c' s'.
Proof. intros Hc. rewrite append_String. congruence. Qed.

(** C4, as the code has it.  For a row whose status is exactly [Passed],
    the name has to be carried by at least one fetched test case: when no
    fetched test case has the name the row is skipped with
    [Test case not found]; when one or several have it the row is not
    skipped for that reason, and an eligible decision carries the last of
    them in the fetched list. *)
Theorem passed_row_needs_a_named_test_case
    (E : env) (test_cases : list (gmap string json))
    (lookup : gmap string (gmap string json)) (row : TestCycle.csv_row) :
  TestCycle.test_lookup test_cases = Ok lookup ->
  TestCycle.row_status row = "Passed" ->
  let name := TestCycle.row_test_case_name row in
  let attachment := TestCycle.row_attachment row in
  (named name test_cases = [] ->
     TestCycle.check_row E lookup row
     = TestCycle.Skipped (name, "Test case not found", Some attachment)) /\
  (forall tc, last (named name test_cases) = Some tc ->
     (forall reason att,
        TestCycle.check_row E lookup row = TestCycle.Skipped (name, reason, att) ->
        reason ≠ "Test case not found") /\
     (forall m, TestCycle.check_row E lookup row = TestCycle.Eligible m ->
        m = (name, tc, attachment)) /\
     (path_exists E attachment = true ->
      TestCycle.allowed (TestCycle.extension E attachment) = true ->
      TestCycle.check_row E lookup row
      = TestCycle.Eligible (name, tc, attachment))).
Proof.
  intros Hl Hst name attachment.
  pose proof (test_lookup_spec test_cases lookup name Hl) as Hget.
  unfold TestCycle.check_row. fold name attachment. rewrite Hst. simpl.
  split.
  - intros Hnone. rewrite Hnone in Hget. simpl in Hget. by rewrite Hget.
  - intros tc Htc. rewrite Htc in Hget. rewrite Hget.
    destruct (path_exists E attachment); simpl.
    + destruct (TestCycle.allowed (TestCycle.extension E attachment)); simpl.
      * conjs; [done| |done]. by intros m [= <-].
      * conjs; [|done|done]. intros reason att [= <- _].
        by apply reason_differs.
    + conjs; [|done|done]. intros reason att [= <- _].
      by apply reason_differs.
Qed.

Lemma passed_row_needs_a_named_test_case_witness :
  TestCycle.check_row quiet_env (<["TC_Android_01" := first_android]> ∅)
    (TestCycle.CsvRow "TC_Android_09" "Passed" "shot.png")
  = TestCycle.Skipped ("TC_Android_09", "Test case not found", Some "shot.png").
Proof.
  apply (passed_row_needs_a_named_test_case quiet_env [first_android]
           (<["TC_Android_01" := first_android]> ∅)
           (TestCycle.CsvRow "TC_Android_09" "Passed" "shot.png"));
    reflexivity.
Defined.

(** C4 as stated fails: two fetched test cases share the name of the row,
    and the row is eligible, with the second of them. *)
Lemma shared_name_is_eligible :
  length (named "TC_Android_01" [first_android; second_android]) = 2%nat /\
  exists lookup,
    TestCycle.test_lookup [first_android; second_android] = Ok lookup /\
    TestCycle.check_row quiet_env lookup
      (TestCycle.CsvRow "TC_Android_01" "Passed" "shot.png")
    = TestCycle.Eligible ("TC_Android_01", second_android, "shot.png").
Proof.
  split; [reflexivity|].
  eexists. split; reflexivity.
Qed.

(** C5, as the code has it.  A row whose status is exactly [Passed] and
    whose attachment does not exist is skipped with [File not found] when
    a fetched test case carries its name, and with [Test case not found]
    when none does. *)
Theorem missing_attachment_decision
    (E : env) (test_cases : list (gmap string json))
    (lookup : gmap string (gmap string json)) (row : TestCycle.csv_row) :
  TestCycle.test_lookup test_cases = Ok lookup ->
  TestCycle.row_status row = "Passed" ->
  path_exists E (TestCycle.row_attachment row) = false ->
  let name := TestCycle.row_test_case_name row in
  let attachment := TestCycle.row_attachment row in
  (named name test_cases ≠ [] ->
     TestCycle.check_row E lookup row
     = TestCycle.Skipped (name, "File not found: " ++ attachment, Some attachment)) /\
  (named name test_cases = [] ->
     TestCycle.check_row E lookup row
     = TestCycle.Skipped (name, "Test case not found", Some attachment)).
Proof.
  intros Hl Hst Hex name attachment.
  pose proof (test_lookup_spec test_cases lookup name Hl) as Hget.
  unfold TestCycle.check_row. fold name attachment. rewrite Hst. simpl.
  split.
  - intros Hsome. destruct (last (named name test_cases)) as [tc|] eqn:Hlast.
    + rewrite Hget. fold attachment in Hex. by rewrite Hex.
    + apply last_None in Hlast. done.
  - intros Hnone. rewrite Hnone in Hget. simpl in Hget. by rewrite Hget.
Qed.

Lemma missing_attachment_decision_witness :
  TestCycle.check_row no_files_env (<["TC_Android_01" := first_android]> ∅)
    (TestCycle.CsvRow "TC_Android_01" "Passed" "gone.png")
  = TestCycle.Skipped ("TC_Android_01", "File not found: gone.png", Some "gone.png").
Proof.
  apply (missing_attachment_decision no_files_env [first_android]
           (<["TC_Android_01" := first_android]> ∅)
           (TestCycle.CsvRow "TC_Android_01" "Passed" "gone.png"));
    [reflexivity|reflexivity|reflexivity|discriminate].
Defined.

(** C5 as stated fails: the attachment does not exist and no fetched test
    case has the name; the reason given is the name, not the file. *)
Lemma missing_file_of_unknown_test_case :
  path_exists no_files_env "gone.png" = false /\
  exists lookup,
    TestCycle.test_lookup [first_android] = Ok lookup /\
    TestCycle.check_row no_files_env lookup
      (TestCycle.CsvRow "TC_Android_09" "Passed" "gone.png")
    = TestCycle.Skipped ("TC_Android_09", "Test case not found", Some "gone.png") /\
    TestCycle.check_row no_files_env lookup
      (TestCycle.CsvRow "TC_Android_09" "Passed" "gone.png")
    ≠ TestCycle.Skipped ("TC_Android_09", "File not found: gone.png", Some "gone.png").
Proof.
  split; [reflexivity|].
  eexists. split; [reflexivity|]. split; [reflexivity|discriminate].
Qed.

(** ** [get_multiple_defects] *)

Section Batch.
Variable E : env.
Variable token : string.
Variable project_id : Z.

Local Abbreviation get_defect_details := (Defect.get_defect_details E token project_id).
Local Abbreviation details_request := (details_request token project_id).

Lemma failed_raises code text body :
  failed (Response code text body) ->
  raise_for_status code = Ok tt -> body = None.
Proof.
  unfold raise_for_status. intros [Hc|Hb] Hr; [|done].
  destruct (Z.leb_spec 400 code); [|lia].
  destruct (Z.ltb_spec code 600); [|lia]. discriminate.
Qed.

(** One call sends one request and returns; it returns [None] when the
    exchange fails. *)
Lemma get_defect_details_runs defect_id w :
  exists details w',
    get_defect_details defect_id w = (w', Ok details) /\
    sent w' = (sent w ++ [details_request defect_id])%list /\
    (failed (net E (sent w) (details_request defect_id)) ->
       details = None /\ error_logged w').
Proof.
  unfold Defect.get_defect_details, Defect._request, error_logged. monad.
  change (Request "GET" _ NoBody) with (details_request defect_id).
  destruct (net E _ _) as [|code text body] eqn:Hnet; simpl.
  - do 2 eexists. split; [reflexivity|]. split; [reflexivity|].
    intros _. split; [reflexivity|]. simpl. rewrite last_snoc. eauto.
  - destruct (code =? 200)%Z eqn:H200; simpl.
    + destruct body as [j|]; simpl.
      * do 2 eexists. split; [reflexivity|]. split; [reflexivity|].
        intros [Hc|Hb]; [|done]. apply Z.eqb_eq in H200. lia.
      * destruct (json_error_is_request_exception E); simpl;
          (do 2 eexists; split; [reflexivity|]; split; [reflexivity|];
           intros _; split; [reflexivity|]; simpl; rewrite last_snoc; eauto).
    + destruct (raise_for_status code) as [[]|e] eqn:Hr; simpl.
      * destruct body as [j|]; simpl.
        -- do 2 eexists. split; [reflexivity|]. split; [reflexivity|].
           intros Hf. by apply (failed_raises code text (Some j)) in Hf.
        -- destruct (json_error_is_request_exception E); simpl;
             (do 2 eexists; split; [reflexivity|]; split; [reflexivity|];
              intros _; split; [reflexivity|]; simpl; rewrite last_snoc; eauto).
      * destruct (is_request_exception E e); simpl;
          (do 2 eexists; split; [reflexivity|]; split; [reflexivity|];
           intros _; split; [reflexivity|]; simpl; rewrite last_snoc; eauto).
Qed.

Local Abbreviation served := (served E token project_id).

Lemma run_workers_runs started w :
  exists fetched w',
    Defect.run_workers E token project_id started w = (w', Ok fetched) /\
    sent w' = (sent w ++ map details_request started)%list /\
    Forall2 served started fetched.
Proof.
  revert w. induction started as [|did rest IH]; intros w; simpl.
  - exists [], w. unfold ret. by rewrite app_nil_r.
  - destruct (get_defect_details_runs did w) as (details & w1 & Hrun & Hsent & Hfail).
    destruct (IH w1) as (fetched & w' & Hrest & Hsent' & Hall).
    exists ((did, Ok (did, details)) :: fetched), w'.
    unfold bind, Defect.submit. rewrite Hrun, Hrest. simpl.
    split; [reflexivity|]. split.
    + rewrite Hsent', Hsent. by rewrite <- app_assoc.
    + constructor; [|exact Hall]. exists details. split; [done|].
      intros Hdown. by apply Hfail.
Qed.

Lemma collect_fold (completed : list Defect.future)
    (results0 : gmap string (option (gmap string json))) :
  Forall (fun f => exists did, served did f) completed ->
  let results :=
    fold_left (fun results (f : Defect.future) =>
                 match snd f with
                 | Ok (defect_id, details) => <[defect_id := details]> results
                 | Raise _ => <[fst f := None]> results
                 end) completed results0 in
  dom results = dom results0 ∪ list_to_set (map fst completed) /\
  (forall defect_id details,
     results !! defect_id = Some details ->
     results0 !! defect_id = Some details \/
     (defect_id, Ok (defect_id, details)) ∈ completed).
Proof.
  intros Hall. revert results0.
  induction Hall as [|f completed (did & details & -> & _) _ IH];
    intros results0; simpl.
  - split; [set_solver|]. auto.
  - destruct (IH (<[did := details]> results0)) as [Hdom Hval]. split.
    + rewrite Hdom, dom_insert_L. set_solver.
    + intros id d Hd. destruct (Hval id d Hd) as [H0|Hin].
      * destruct (decide (did = id)) as [->|Hne].
        -- rewrite lookup_insert_eq in H0. injection H0 as <-.
           right. apply list_elem_of_here.
        -- rewrite lookup_insert_ne in H0 by done. by left.
      * right. by apply list_elem_of_further.
Qed.
End Batch.

(** C7.  Whatever the order in which the pool runs the fetches and hands
    them back, [get_multiple_defects] returns, and the keys of the result
    are exactly the requested ids: each requested id has an entry.  One
    request is sent for each element of the list of ids, none twice.  An
    id on which the service fails has the entry [None]. *)
Theorem get_multiple_defects_keys
    (E : env) (token : string) (project_id : Z) (defect_ids : list string)
    (w : world) :
  (exists w' results,
     Defect.get_multiple_defects E token project_id defect_ids w w' results) /\
  (forall w' results,
     Defect.get_multiple_defects E token project_id defect_ids w w' results ->
     dom results = list_to_set defect_ids /\
     (forall defect_id, defect_id ∈ defect_ids -> is_Some (results !! defect_id)) /\
     (exists started,
        started ≡ₚ defect_ids /\
        sent w' = (sent w ++ map (details_request token project_id) started)%list) /\
     length (sent w') = (length (sent w) + length defect_ids)%nat /\
     (forall defect_id,
        defect_id ∈ defect_ids ->
        (forall history,
           failed (net E history (details_request token project_id defect_id))) ->
        results !! defect_id = Some None)).
Proof.
  split.
  - destruct (run_workers_runs E token project_id defect_ids w)
      as (fetched & w' & Hrun & _ & _).
    exists w', (Defect.collect fetched), defect_ids, fetched, fetched. auto.
  - intros w' results (started & fetched & completed & Hst & Hrun & Hco & ->).
    destruct (run_workers_runs E token project_id started w)
      as (fetched' & w'' & Hrun' & Hsent & Hserved).
    rewrite Hrun in Hrun'. injection Hrun' as <- <-.
    assert (Hkeys : map fst fetched = started).
    { clear -Hserved. induction Hserved as [|did f ? ? (d & -> & _) _ IH]; simpl;
        [done|by f_equal]. }
    assert (Hall : Forall (fun f => exists did, served E token project_id did f) completed).
    { rewrite Hco. clear -Hserved.
      induction Hserved; constructor; eauto. }
    destruct (collect_fold E token project_id completed ∅ Hall) as [Hdom Hval].
    fold (Defect.collect completed) in Hdom, Hval.
    assert (Hd : dom (Defect.collect completed) = list_to_set defect_ids).
    { rewrite Hdom, dom_empty_L, (left_id_L ∅ (∪)).
      rewrite <- Hst, <- Hkeys. apply list_to_set_perm_L.
      by apply Permutation_map. }
    conjs.
    + exact Hd.
    + intros id Hid. apply elem_of_dom. rewrite Hd. by apply elem_of_list_to_set.
    + exists started. split; [exact Hst|exact Hsent].
    + rewrite Hsent, length_app, length_map. by rewrite Hst.
    + intros id Hid Hdown.
      assert (His : is_Some (Defect.collect completed !! id)).
      { apply elem_of_dom. rewrite Hd. by apply elem_of_list_to_set. }
      destruct His as [details Hdet]. rewrite Hdet. f_equal.
      destruct (Hval id details Hdet) as [H0|Hin]; [by rewrite lookup_empty in H0|].
      rewrite Hco in Hin.
      clear -Hserved Hin Hdown.
      induction Hserved as [|did f ? ? (d & -> & Hnone) _ IH].
      * by apply elem_of_nil in Hin.
      * apply elem_of_cons in Hin as [Heq|Hin]; [|by apply IH].
        injection Heq as Hid _ Hd. subst. by apply Hnone.
Qed.

Lemma get_multiple_defects_keys_witness :
  exists w' results,
    Defect.get_multiple_defects down_env "abcd1234efgh" 7
      ["101"; "102"; "101"] fresh w' results /\
    dom results = list_to_set ["101"; "102"; "101"] /\
    length (sent w') = 3%nat /\
    results !! "102" = Some None.
Proof.
  destruct (get_multiple_defects_keys down_env "abcd1234efgh" 7
              ["101"; "102"; "101"] fresh) as [(w' & results & Hrun) Hspec].
  exists w', results.
  destruct (Hspec w' results Hrun) as (Hdom & _ & _ & Hlen & Hnone).
  conjs; [exact Hrun|exact Hdom|exact Hlen|].
  apply Hnone; [compute_done|]. intros history. exact I.
Defined.

(** ** The list operations *)

Section Lists.
Variable E : env.
Variable token : string.
Variable project_id : Z.

Lemma list_defects_soft length w :
  exists v w',
    Defect.list_defects E token project_id length w = (w', Ok v) /\
    (failed (net E (sent w) (defects_request token project_id length)) ->
       v = JList [] /\ error_logged w').
Proof.
  unfold Defect.list_defects, Defect._request, error_logged. monad.
  change (Request "POST" "/defects/list" _)
    with (defects_request token project_id length).
  destruct (net E _ _) as [|code text [j|]]; simpl.
  - soft_leaf.
  - destruct (code =? 200)%Z eqn:H200; simpl.
    + destruct (default (JList []) (j !! "data")); simpl;
        (do 2 eexists; split; [reflexivity|]; intros [Hc|Hb]; [|done];
         apply Z.eqb_eq in H200; lia).
    + destruct (raise_for_status code) as [[]|e] eqn:Hr; simpl.
      * destruct (default (JList []) (j !! "data")); simpl;
          (do 2 eexists; split; [reflexivity|]; intros Hf;
           by apply (failed_raises code text (Some j)) in Hf).
      * destruct (is_request_exception E e); simpl; soft_leaf.
  - destruct (code =? 200)%Z; simpl.
    + destruct (json_error_is_request_exception E); simpl; soft_leaf.
    + destruct (raise_for_status code) as [[]|e]; simpl.
      * destruct (json_error_is_request_exception E); simpl; soft_leaf.
      * destruct (is_request_exception E e); simpl; soft_leaf.
Qed.

Lemma request_raises method endpoint json_data files data w :
  failed (net E (sent w) (Request method endpoint
                            (TestCycle.payload_of method json_data files data))) ->
  exists e w',
    TestCycle._request E method endpoint json_data files data w = (w', Raise e) /\
    sent w' = (sent w ++ [Request method endpoint
                            (TestCycle.payload_of method json_data files data)])%list.
Proof.
  unfold TestCycle._request. monad.
  destruct (net E _ _) as [|code text body]; simpl.
  - intros _. do 2 eexists. split; reflexivity.
  - destruct (raise_for_status code) as [[]|e] eqn:Hr; simpl.
    + intros Hf. pose proof (failed_raises code text body Hf Hr) as ->. simpl.
      destruct (json_error_is_request_exception E); simpl;
        do 2 eexists; split; reflexivity.
    + intros _. do 2 eexists. split; reflexivity.
Qed.

Lemma request_returns method endpoint json_data files data w :
  ~ failed (net E (sent w) (Request method endpoint
                              (TestCycle.payload_of method json_data files data))) ->
  exists code text j,
    net E (sent w) (Request method endpoint
                      (TestCycle.payload_of method json_data files data))
      = Response code text (Some j) /\
    TestCycle._request E method endpoint json_data files data w
      = (World (sent w ++ [Request method endpoint
                             (TestCycle.payload_of method json_data files data)])
               (errlog w), Ok j).
Proof.
  unfold TestCycle._request. monad.
  destruct (net E _ _) as [|code text body]; simpl.
  - intros H. by destruct H.
  - intros H. destruct body as [j|]; [|destruct H; by right].
    exists code, text, j. split; [reflexivity|].
    unfold raise_for_status.
    destruct (Z.leb_spec 400 code); simpl; [|reflexivity].
    destruct (Z.ltb_spec code 600); simpl; [|reflexivity].
    destruct H. left. lia.
Qed.

End Lists.



(** ** The execution loops *)

Section Execution.
Variable E : env.
Variable token : string.
Variable project_id : Z.

Lemma execute_updates_runs valid success_count fail_count w :
  exists s f w',
    Defect.execute_updates E token project_id valid success_count fail_count w
      = (w', Ok (s, f)) /\
    (s + f = success_count + fail_count + length valid)%nat /\
    sent w' = (sent w ++ map (update_request E token project_id) valid)%list.
Proof.
  revert success_count fail_count w.
  induction valid as [|[[[defect_id status] rca] defect] rest IH];
    intros success_count fail_count w; simpl.
  - exists success_count, fail_count, w. unfold ret.
    split; [reflexivity|]. split; [lia|by rewrite app_nil_r].
  - destruct (update_defect_runs E token project_id defect_id status rca defect w)
      as (ok & w1 & Hrun & Hsent).
    unfold bind. rewrite Hrun.
    destruct ok.
    + destruct (IH (S success_count) fail_count w1) as (s & f & w' & Hrest & Hsum & Hs).
      exists s, f, w'. split; [exact Hrest|]. split; [lia|].
      rewrite Hs, Hsent. by rewrite <- app_assoc.
    + destruct (IH success_count (S fail_count) w1) as (s & f & w' & Hrest & Hsum & Hs).
      exists s, f, w'. split; [exact Hrest|]. split; [lia|].
      rewrite Hs, Hsent. by rewrite <- app_assoc.
Qed.

(** [_request] sends its request, whatever the outcome. *)
Lemma request_sends method endpoint json_data files data w :
  exists r w',
    TestCycle._request E method endpoint json_data files data w = (w', r) /\
    sent w' = (sent w ++ [Request method endpoint
                            (TestCycle.payload_of method json_data files data)])%list.
Proof.
  unfold TestCycle._request. monad.
  destruct (net E _ _) as [|code text body]; simpl.
  - do 2 eexists. split; reflexivity.
  - destruct (raise_for_status code) as [[]|e]; simpl.
    + destruct body; simpl; [do 2 eexists; split; reflexivity|].
      destruct (json_error_is_request_exception E); simpl;
        do 2 eexists; split; reflexivity.
    + do 2 eexists. split; reflexivity.
Qed.

Lemma execute_test_sends cycle_id (entry : TestCycle.matched_entry) w :
  let tc := snd (fst entry) in
  exists r w',
    TestCycle.execute_test E token project_id
      (default JNull (tc !! "testcase_id")) (default JNull (tc !! "build_id"))
      cycle_id (default JNull (tc !! "testscenario_id")) w = (w', r) /\
    sent w' = (sent w ++ [execute_request token project_id cycle_id entry])%list.
Proof.
  intros tc. unfold TestCycle.execute_test.
  match goal with
  | |- context [TestCycle._request E ?m ?e ?j ?f ?d] =>
      destruct (request_sends m e j f d w) as (r & w1 & Hrun & Hsent)
  end.
  change (Request "POST" "/test_case_execution/execute" _)
    with (execute_request token project_id cycle_id entry) in Hsent.
  unfold bind. rewrite Hrun. destruct r as [response|e].
  - destruct (negb (dict_truthy response)); [by do 2 eexists|].
    destruct (negb (truthy (default JNull (response !! "status"))));
      [by do 2 eexists|].
    destruct (response !! "executed_results") as [results|]; [|by do 2 eexists].
    destruct (negb (truthy results)); by do 2 eexists.
  - by do 2 eexists.
Qed.

Lemma upload_attachment_sends cycle_id (entry : TestCycle.matched_entry)
    execution_id w :
  let tc := snd (fst entry) in
  exists ok w',
    TestCycle.upload_attachment E token project_id
      (default JNull (tc !! "testcase_id")) cycle_id execution_id (snd entry) w
      = (w', Ok ok) /\
    (sent w' = sent w \/
     sent w' = (sent w ++ [upload_request E token project_id cycle_id entry
                             execution_id])%list).
Proof.
  intros tc. unfold TestCycle.upload_attachment.
  destruct (negb (path_exists E entry.2)); [do 2 eexists; split; [reflexivity|by left]|].
  destruct (negb (TestCycle.allowed _)); [do 2 eexists; split; [reflexivity|by left]|].
  unfold catch, bind at 1.
  destruct (can_open E entry.2); simpl.
  - match goal with
    | |- context [TestCycle._request E ?m ?e ?j ?f ?d] =>
        destruct (request_sends m e j f d w) as (r & w1 & Hrun & Hsent)
    end.
    change (Request "POST" "/test_case_execution/execution_attachments" _)
      with (upload_request E token project_id cycle_id entry execution_id) in Hsent.
    unfold bind, ret. rewrite Hrun. destruct r as [response|e].
    + destruct (dict_truthy response && truthy (default JNull (response !! "status")));
        do 2 eexists; (split; [reflexivity|by right]).
    + do 2 eexists. split; [reflexivity|by right].
  - do 2 eexists. split; [reflexivity|by left].
Qed.

(** The body of the loop returns, having sent the execution and at most
    the upload. *)
Lemma process_row_runs cycle_id entry w :
  exists ok w' trace,
    TestCycle.process_row E token project_id cycle_id entry w = (w', Ok ok) /\
    sent w' = (sent w ++ trace)%list /\
    row_trace E token project_id cycle_id entry trace.
Proof.
  destruct (execute_test_sends cycle_id entry w) as (r & w1 & Hexec & Hsent1).
  destruct entry as [[tc_name tc] att_path]. unfold TestCycle.process_row.
  simpl in Hexec. unfold catch, bind. rewrite Hexec.
  destruct r as [execution_id|e].
  - destruct (truthy execution_id) eqn:Hid; simpl.
    + destruct (upload_attachment_sends cycle_id (tc_name, tc, att_path)
                  execution_id w1) as (ok & w2 & Hup & Hsent2).
      simpl in Hup. rewrite Hup. exists ok, w2.
      destruct Hsent2 as [Hsame|Hmore].
      * eexists. split; [reflexivity|]. split; [by rewrite Hsame, Hsent1|by left].
      * eexists. split; [reflexivity|]. split.
        -- rewrite Hmore, Hsent1. by rewrite <- app_assoc.
        -- right. eauto.
    + do 3 eexists. split; [reflexivity|]. split; [exact Hsent1|by left].
  - do 3 eexists. split; [reflexivity|]. split; [exact Hsent1|by left].
Qed.

Lemma execute_rows_runs cycle_id matched success_count fail_count w :
  exists s f w' traces,
    TestCycle.execute_rows E token project_id cycle_id matched
      success_count fail_count w = (w', Ok (s, f)) /\
    (s + f = success_count + fail_count + length matched)%nat /\
    sent w' = (sent w ++ concat traces)%list /\
    Forall2 (row_trace E token project_id cycle_id) matched traces.
Proof.
  revert success_count fail_count w.
  induction matched as [|entry rest IH]; intros success_count fail_count w; simpl.
  - exists success_count, fail_count, w, []. unfold ret. simpl.
    split; [reflexivity|]. split; [lia|]. split; [by rewrite app_nil_r|constructor].
  - destruct (process_row_runs cycle_id entry w) as (ok & w1 & trace & Hrun & Hsent & Htr).
    unfold bind. rewrite Hrun.
    destruct ok.
    + destruct (IH (S success_count) fail_count w1)
        as (s & f & w' & traces & Hrest & Hsum & Hs & Hall).
      exists s, f, w', (trace :: traces). split; [exact Hrest|]. split; [lia|].
      split; [|by constructor]. rewrite Hs, Hsent. simpl. by rewrite <- app_assoc.
    + destruct (IH success_count (S fail_count) w1)
        as (s & f & w' & traces & Hrest & Hsum & Hs & Hall).
      exists s, f, w', (trace :: traces). split; [exact Hrest|]. split; [lia|].
      split; [|by constructor]. rewrite Hs, Hsent. simpl. by rewrite <- app_assoc.
Qed.

End Execution.

(** C8.  Both execution loops take the eligible rows in their order, one
    after the other: the requests reach the service row by row, in the order
    of the list.  Every row adds one to exactly one of the two counters and
    the loop goes on to the next row, so success and failure add up to the
    number of eligible rows, while the third number of the summary is the
    length of [skipped] as validation left it.  A row of the test variant
    whose execution returns an id and whose upload fails counts as a
    failure; the execution request stays sent and nothing but the upload
    follows it. *)
Theorem batch_executor_counts (E : env) (token : string) (project_id : Z) :
  (forall valid skipped w,
     exists s f w',
       Defect.execute_and_summarise E token project_id valid skipped w
         = (w', Ok (s, f, length skipped)) /\
       (s + f = length valid)%nat /\
       sent w' = (sent w ++ map (update_request E token project_id) valid)%list) /\
  (forall cycle_id matched skipped w,
     exists s f w' traces,
       TestCycle.execute_and_summarise E token project_id cycle_id matched skipped w
         = (w', Ok (s, f, length skipped)) /\
       (s + f = length matched)%nat /\
       sent w' = (sent w ++ concat traces)%list /\
       Forall2 (row_trace E token project_id cycle_id) matched traces) /\
  (forall cycle_id (entry : TestCycle.matched_entry) skipped w w1 w2 execution_id,
     let tc := snd (fst entry) in
     TestCycle.execute_test E token project_id
       (default JNull (tc !! "testcase_id")) (default JNull (tc !! "build_id"))
       cycle_id (default JNull (tc !! "testscenario_id")) w
       = (w1, Ok execution_id) ->
     truthy execution_id = true ->
     TestCycle.upload_attachment E token project_id
       (default JNull (tc !! "testcase_id")) cycle_id execution_id (snd entry) w1
       = (w2, Ok false) ->
     TestCycle.process_row E token project_id cycle_id entry w = (w2, Ok false) /\
     TestCycle.execute_and_summarise E token project_id cycle_id [entry] skipped w
       = (w2, Ok (0, 1, length skipped)%nat) /\
     exists rest,
       sent w2 = (sent w ++ execute_request token project_id cycle_id entry :: rest)%list /\
       (rest = [] \/
        rest = [upload_request E token project_id cycle_id entry execution_id])).
Proof.
  conjs.
  - intros valid skipped w.
    destruct (execute_updates_runs E token project_id valid 0 0 w)
      as (s & f & w' & Hrun & Hsum & Hsent).
    exists s, f, w'. unfold Defect.execute_and_summarise, bind. rewrite Hrun.
    auto.
  - intros cycle_id matched skipped w.
    destruct (execute_rows_runs E token project_id cycle_id matched 0 0 w)
      as (s & f & w' & traces & Hrun & Hsum & Hsent & Hall).
    exists s, f, w', traces.
    unfold TestCycle.execute_and_summarise, bind. rewrite Hrun. auto.
  - intros cycle_id [[tc_name tc] att_path] skipped w w1 w2 execution_id tc'
      Hexec Hid Hup.
    subst tc'. simpl in Hexec, Hup.
    assert (Hrow : TestCycle.process_row E token project_id cycle_id
                     (tc_name, tc, att_path) w = (w2, Ok false)).
    { unfold TestCycle.process_row, catch, bind. rewrite Hexec, Hid. simpl.
      by rewrite Hup. }
    conjs.
    + exact Hrow.
    + unfold TestCycle.execute_and_summarise.
      cbn [TestCycle.execute_rows]. unfold bind at 1 2.
      by rewrite Hrow.
    + destruct (execute_test_sends E token project_id cycle_id
                  (tc_name, tc, att_path) w) as (r & w1' & Hexec' & Hsent1).
      simpl in Hexec'. rewrite Hexec in Hexec'. injection Hexec' as <- <-.
      destruct (upload_attachment_sends E token project_id cycle_id
                  (tc_name, tc, att_path) execution_id w1)
        as (ok & w2' & Hup' & Hsent2).
      simpl in Hup'. rewrite Hup in Hup'. injection Hup' as <- <-.
      destruct Hsent2 as [Hsame|Hmore].
      * exists []. split; [by rewrite Hsame, Hsent1|by left].
      * eexists. split; [|by right]. rewrite Hmore, Hsent1.
        by rewrite <- app_assoc.
Qed.

Lemma batch_executor_counts_witness :
  let entry : TestCycle.matched_entry :=
    ("TC_Android_01", first_android, "shot.png") in
  snd (TestCycle.process_row flaky_env "abcd1234efgh" 7 (JInt 3) entry fresh)
    = Ok false /\
  snd (TestCycle.execute_and_summarise flaky_env "abcd1234efgh" 7 (JInt 3)
         [entry] [("TC_Android_02", "Test case not found", Some "shot.png")] fresh)
    = Ok (0, 1, 1)%nat.
Proof.
  intros entry.
  destruct (proj2 (proj2 (batch_executor_counts flaky_env "abcd1234efgh" 7))
              (JInt 3) entry
              [("TC_Android_02", "Test case not found", Some "shot.png")] fresh
              (fst (TestCycle.execute_test flaky_env "abcd1234efgh" 7
                      (JInt 11) JNull (JInt 3) JNull fresh))
              (fst (TestCycle.process_row flaky_env "abcd1234efgh" 7 (JInt 3)
                      entry fresh))
              (JInt 55))
    as (Hrow & Hsum & _); [reflexivity|reflexivity|reflexivity|].
  split; [by rewrite Hrow|by rewrite Hsum].
Defined.

(** Scenario A, end to end: of the three rows one is eligible and two are
    skipped, for different reasons; the confirmed run ends with one
    success, no failure and two skipped rows. *)
Example scenario_a :
  Defect.validate scenario_defects scenario_rows
    = Ok ([("101", "close", "Code: Bug", <["status" := JStr "open"]> ∅)],
          [("102", "Already closed"); ("103", "Defect not found")]) /\
  snd (Defect.execute_and_summarise quiet_env "abcd1234efgh" 7
         [("101", "close", "Code: Bug", <["status" := JStr "open"]> ∅)]
         [("102", "Already closed"); ("103", "Defect not found")] fresh)
    = Ok (1, 0, 2)%nat.
Proof. split; reflexivity. Qed.

(** ** More on the API clients *)

Section Gateway.
Variable E : env.
Variable token : string.
Variable project_id : Z.

Lemma not_failed_inv t :
  ~ failed t ->
  exists code text j,
    t = Response code text (Some j) /\ raise_for_status code = Ok tt.
Proof.
  destruct t as [|code text [j|]]; simpl; intros H.
  - by destruct H.
  - exists code, text, j. split; [done|]. unfold raise_for_status.
    destruct (Z.leb_spec 400 code); simpl; [|done].
    destruct (Z.ltb_spec code 600); simpl; [|done].
    destruct H. left. lia.
  - destruct H. by right.
Qed.

(** [update_defect] returns [True] exactly when the exchange has not
    failed: the service answered, with a status outside 400-599 and a body
    that parses.  A failed exchange gives [False] and an ERROR record.  An
    answer with another status than 200 is reported in the log as an API
    error even when [True] is returned. *)
Theorem update_defect_true_iff_answered
    (defect_id status rca : string) (defect_data : gmap string json) (w : world) :
  let req := update_request E token project_id (defect_id, status, rca, defect_data) in
  let res := Defect.update_defect E token project_id defect_id status rca defect_data w in
  (~ failed (net E (sent w) req) -> snd res = Ok true) /\
  (failed (net E (sent w) req) -> snd res = Ok false /\ error_logged (fst res)) /\
  (forall code text j,
     net E (sent w) req = Response code text (Some j) ->
     code ≠ 200%Z -> ~ (400 <= code < 600)%Z ->
     snd res = Ok true /\ errlog (fst res)
       = (errlog w ++ [(ERROR, ("API Error: " ++ text)%string)])%list).
Proof.
  intros req res. subst res. unfold Defect.update_defect, Defect._request, error_logged.
  monad. fold req. conjs.
  - intros Hok. apply not_failed_inv in Hok as (code & text & j & -> & Hr). simpl.
    destruct (code =? 200)%Z; simpl; [done|]. by rewrite Hr.
  - destruct (net E (sent w) req) as [|code text [j|]]; simpl.
    + intros _. split; [done|]. simpl. rewrite last_snoc. eauto.
    + intros [Hc|Hb]; [|done].
      destruct (Z.eqb_spec code 200); [lia|]. simpl.
      unfold raise_for_status.
      destruct (Z.leb_spec 400 code); [|lia].
      destruct (Z.ltb_spec code 600); [|lia]. simpl.
      split; [done|]. rewrite last_snoc. eauto.
    + intros _. destruct (code =? 200)%Z; simpl.
      * destruct (json_error_is_request_exception E); simpl;
          (split; [done|]; rewrite last_snoc; eauto).
      * destruct (raise_for_status code) as [[]|e]; simpl.
        -- destruct (json_error_is_request_exception E); simpl;
             (split; [done|]; rewrite last_snoc; eauto).
        -- destruct (is_request_exception E e); simpl;
             (split; [done|]; rewrite last_snoc; eauto).
  - intros code text j -> Hne Hrange. simpl.
    destruct (Z.eqb_spec code 200); [done|]. simpl.
    unfold raise_for_status.
    destruct (Z.leb_spec 400 code); simpl; [|done].
    destruct (Z.ltb_spec code 600); simpl; [|done]. lia.
Qed.

(** [get_defect_details] does not raise.  It returns the body of the
    answer, as it is, when the exchange has not failed, and [None] with an
    ERROR record when it has. *)
Theorem get_defect_details_body (defect_id : string) (w : world) :
  let req := details_request token project_id defect_id in
  let res := Defect.get_defect_details E token project_id defect_id w in
  (forall code text j,
     net E (sent w) req = Response code text (Some j) ->
     ~ (400 <= code < 600)%Z ->
     snd res = Ok (Some j)) /\
  (failed (net E (sent w) req) -> snd res = Ok None /\ error_logged (fst res)) /\
  sent (fst res) = (sent w ++ [req])%list.
Proof.
  intros req res. subst res. conjs.
  - intros code text j Hnet Hrange.
    unfold Defect.get_defect_details, Defect._request. monad.
    change (Request "GET" _ NoBody) with req. rewrite Hnet. simpl.
    assert (Hr : raise_for_status code = Ok tt).
    { unfold raise_for_status.
      destruct (Z.leb_spec 400 code); simpl; [|done].
      destruct (Z.ltb_spec code 600); simpl; [|done]. lia. }
    destruct (code =? 200)%Z; simpl; [done|]. by rewrite Hr.
  - destruct (get_defect_details_runs E token project_id defect_id w)
      as (details & w' & Hrun & Hsent & Hfail).
    rewrite Hrun. simpl. intros Hf. by destruct (Hfail Hf) as [-> Hlog].
  - destruct (get_defect_details_runs E token project_id defect_id w)
      as (details & w' & Hrun & Hsent & Hfail).
    by rewrite Hrun.
Qed.

(** [list_defects] after an answer with status 200: the list under [data]
    is returned as it is and nothing is logged; without [data] the result
    is the empty list; a [data] that has no length (null, a number, a
    boolean) gives the empty list and an ERROR record. *)
Theorem list_defects_data (length : Z) (w : world) (text : string)
    (j : gmap string json) :
  net E (sent w) (defects_request token project_id length)
    = Response 200 text (Some j) ->
  let res := Defect.list_defects E token project_id length w in
  (forall l, j !! "data" = Some (JList l) ->
     snd res = Ok (JList l) /\ errlog (fst res) = errlog w) /\
  (j !! "data" = None -> snd res = Ok (JList []) /\ errlog (fst res) = errlog w) /\
  (forall v, j !! "data" = Some v ->
     match v with JNull | JBool _ | JInt _ | JFloat _ => True | _ => False end ->
     snd res = Ok (JList []) /\ error_logged (fst res)).
Proof.
  intros Hnet res. subst res.
  unfold Defect.list_defects, Defect._request, error_logged. monad.
  change (Request "POST" "/defects/list" _)
    with (defects_request token project_id length).
  rewrite Hnet. simpl. conjs.
  - intros l ->. done.
  - intros ->. done.
  - intros v -> Hv. destruct v; try done; simpl;
      (split; [done|]; rewrite last_snoc; eauto).
Qed.

End Gateway.

Section TestGateway.
Variable E : env.
Variable token : string.
Variable project_id : Z.

Lemma in_range_raises code :
  (400 <= code < 600)%Z -> raise_for_status code = Raise (HTTPError code).
Proof.
  intros H. unfold raise_for_status.
  destruct (Z.leb_spec 400 code); [|lia].
  destruct (Z.ltb_spec code 600); [|lia]. done.
Qed.

Lemma out_of_range_passes code :
  ~ (400 <= code < 600)%Z -> raise_for_status code = Ok tt.
Proof.
  intros H. unfold raise_for_status.
  destruct (Z.leb_spec 400 code); simpl; [|done].
  destruct (Z.ltb_spec code 600); simpl; [|done]. lia.
Qed.

Lemma raises_in_range code e :
  raise_for_status code = Raise e -> (400 <= code < 600)%Z.
Proof.
  unfold raise_for_status.
  destruct (Z.leb_spec 400 code); simpl; [|done].
  destruct (Z.ltb_spec code 600); simpl; [|done]. lia.
Qed.

(** [execute_test] raises the error of a failed exchange.  After an answer
    whose [status] is false or missing it returns [None].  An execution id
    that counts as one (a true value) is always the [id] of the first
    element of [executed_results] in an answer whose [status] is true. *)
Theorem execute_test_id_origin
    (tc_id build_id cycle_id testscenario_id : json) (w : world) :
  let req := execute_test_request token project_id tc_id build_id cycle_id
               testscenario_id in
  let res := TestCycle.execute_test E token project_id tc_id build_id cycle_id
               testscenario_id w in
  sent (fst res) = (sent w ++ [req])%list /\
  (failed (net E (sent w) req) -> exists e, snd res = Raise e) /\
  (forall code text j,
     net E (sent w) req = Response code text (Some j) ->
     ~ (400 <= code < 600)%Z ->
     truthy (default JNull (j !! "status")) = false ->
     snd res = Ok JNull) /\
  (forall execution_id,
     snd res = Ok execution_id -> truthy execution_id = true ->
     exists code text j r rest,
       net E (sent w) req = Response code text (Some j) /\
       ~ (400 <= code < 600)%Z /\
       truthy (default JNull (j !! "status")) = true /\
       j !! "executed_results" = Some (JList (JDict r :: rest)) /\
       r !! "id" = Some execution_id).
Proof.
  intros req res. subst res. unfold TestCycle.execute_test, TestCycle._request.
  monad. change (Request "POST" "/test_case_execution/execute" _) with req.
  destruct (net E (sent w) req) as [|code text [j|]] eqn:Hnet; simpl.
  - conjs; [done|eauto|by intros|by intros].
  - destruct (raise_for_status code) as [[]|e] eqn:Hr; simpl.
    + assert (Hnf : (400 <= code < 600)%Z \/ Some j = None -> False).
      { intros [Hc|Hb]; [by rewrite (in_range_raises _ Hc) in Hr|done]. }
      destruct (negb (dict_truthy j)) eqn:Hj; simpl.
      { conjs; [done|intros Hf; by destruct (Hnf Hf)|by intros
               |by intros id [= <-]]. }
      destruct (truthy (default JNull (j !! "status"))) eqn:Hs; simpl.
      * destruct (j !! "executed_results") as [results|] eqn:Hres; simpl.
        -- destruct (truthy results) eqn:Htr; simpl.
           ++ conjs; [done|intros Hf; by destruct (Hnf Hf)
                     |intros ? ? ? [= <- <- <-] ? ?; congruence|].
              intros id Hid Htruthy.
              destruct results as [| | | | |[|[| | | | | |r] rest]|]; try done.
              simpl in Hid. injection Hid as <-.
              exists code, text, j, r, rest. conjs; try done.
              ** intros Hc. by rewrite (in_range_raises _ Hc) in Hr.
              ** destruct (r !! "id") as [v|]; [done|]. simpl in Htruthy. done.
           ++ conjs; [done|intros Hf; by destruct (Hnf Hf)|by intros
                     |by intros id [= <-]].
        -- conjs; [done|intros Hf; by destruct (Hnf Hf)|by intros
                  |by intros id [= <-]].
      * conjs; [done|intros Hf; by destruct (Hnf Hf)|by intros
               |by intros id [= <-]].
    + conjs; [done|eauto| |by intros].
      intros ? ? ? [= <- <- <-] Hc. apply raises_in_range in Hr. done.
  - destruct (raise_for_status code) as [[]|e] eqn:Hr; simpl.
    + destruct (json_error_is_request_exception E); simpl;
        (conjs; [done|eauto|by intros|by intros]).
    + conjs; [done|eauto|by intros|by intros].
Qed.

End TestGateway.

Section Attachments.
Variable E : env.
Variable token : string.
Variable project_id : Z.

(** [upload_attachment] checks the file before it talks to the service:
    for a path that does not exist, or whose extension is not allowed, it
    returns [False], logs an error and sends nothing. *)
Theorem upload_attachment_checks_first
    (testcase_id cycle_id execution_id : json) (file_path : string) (w : world) :
  path_exists E file_path = false \/
  TestCycle.allowed (TestCycle.extension E file_path) = false ->
  let res := TestCycle.upload_attachment E token project_id testcase_id cycle_id
               execution_id file_path w in
  snd res = Ok false /\ sent (fst res) = sent w /\ error_logged (fst res).
Proof.
  intros Hpre res. subst res. unfold TestCycle.upload_attachment, error_logged.
  destruct (path_exists E file_path) eqn:Hex; simpl.
  - destruct Hpre as [?|Hext]; [done|]. rewrite Hext. monad.
    conjs; [done|done|]. rewrite last_snoc. eauto.
  - monad. conjs; [done|done|]. rewrite last_snoc. eauto.
Qed.

(** [upload_attachment] does not raise, and it returns [True] exactly when
    the file exists, has an allowed extension and can be opened, and the
    service answers the upload with a status outside 400-599 and a body
    whose [status] is true. *)
Theorem upload_attachment_true_iff
    (testcase_id cycle_id execution_id : json) (file_path : string) (w : world) :
  let req := attachment_request E token project_id testcase_id cycle_id
               execution_id file_path in
  let res := TestCycle.upload_attachment E token project_id testcase_id cycle_id
               execution_id file_path w in
  (exists ok, snd res = Ok ok) /\
  (snd res = Ok true <->
     path_exists E file_path = true /\
     TestCycle.allowed (TestCycle.extension E file_path) = true /\
     can_open E file_path = true /\
     exists code text j,
       net E (sent w) req = Response code text (Some j) /\
       ~ (400 <= code < 600)%Z /\
       truthy (default JNull (j !! "status")) = true).
Proof.
  intros req res. subst res. unfold TestCycle.upload_attachment.
  destruct (path_exists E file_path) eqn:Hex; simpl;
    [|split; [by eexists|split; [done|by intros (? & _)]]].
  destruct (TestCycle.allowed (TestCycle.extension E file_path)) eqn:Hext; simpl;
    [|split; [by eexists|split; [done|by intros (_ & ? & _)]]].
  unfold catch, bind at 1.
  destruct (can_open E file_path) eqn:Hopen; simpl;
    [|split; [by eexists|split; [done|by intros (_ & _ & ? & _)]]].
  unfold TestCycle._request. monad.
  change (Request "POST" "/test_case_execution/execution_attachments" _) with req.
  destruct (net E (sent w) req) as [|code text [j|]] eqn:Hnet; simpl.
  - split; [by eexists|]. split; [done|]. by intros (_ & _ & _ & ? & ? & ? & ? & _).
  - destruct (raise_for_status code) as [[]|e] eqn:Hr; simpl.
    + destruct (dict_truthy j && truthy (default JNull (j !! "status"))) eqn:Hok;
        simpl.
      * split; [by eexists|]. split; [|done]. intros _.
        apply andb_prop in Hok as [_ Hs]. conjs; try done.
        exists code, text, j. conjs; try done.
        intros Hc. by rewrite (in_range_raises _ Hc) in Hr.
      * split; [by eexists|]. split; [done|].
        intros (_ & _ & _ & code' & text' & j' & [= <- <- <-] & _ & Hs).
        rewrite Hs, andb_true_r in Hok.
        assert (dict_truthy j = true); [|congruence].
        unfold dict_truthy. destruct (Nat.eqb_spec (size j) 0) as [Hz|]; [|done].
        apply map_size_empty_iff in Hz. subst j. by rewrite lookup_empty in Hs.
    + split; [by eexists|]. split; [done|].
      intros (_ & _ & _ & code' & text' & j' & [= <- <- <-] & Hc & _).
      apply raises_in_range in Hr. done.
  - destruct (raise_for_status code) as [[]|e] eqn:Hr; simpl.
    + destruct (json_error_is_request_exception E); simpl;
        (split; [by eexists|]; split; [done|];
         by intros (_ & _ & _ & ? & ? & ? & ? & _)).
    + split; [by eexists|]. split; [done|].
      by intros (_ & _ & _ & ? & ? & ? & ? & _).
Qed.

End Attachments.

(** ** More on the two validators *)


Lemma last_named_elem name test_cases tc :
  last (named name test_cases) = Some tc ->
  tc ∈ test_cases /\ tc !! "tc_name" = Some (JStr name).
Proof.
  intros Hlast.
  assert (Hin : In tc (named name test_cases)).
  { apply list_elem_of_In. apply last_Some in Hlast as [l' ->].
    apply elem_of_app. right. apply list_elem_of_here. }
  apply filter_In in Hin as [Hin Hname]. split; [by apply list_elem_of_In|].
  unfold has_name in Hname.
  destruct (tc !! "tc_name") as [[| | | |n| |]|]; try done.
  by apply String.eqb_eq in Hname as ->.
Qed.

(** What validation hands to the execution loop of the test variant: each
    matched entry comes from a row whose status is [Passed], carries a
    fetched test case with the name of the row, and an attachment that
    exists and has an allowed extension.  The checks of [upload_attachment]
    therefore pass for it: when the file can be opened the upload is sent. *)
Theorem matched_entries_are_ready
    (E : env) (token : string) (project_id : Z)
    (test_cases : list (gmap string json)) (rows : list TestCycle.csv_row)
    (matched : list TestCycle.matched_entry)
    (skipped : list TestCycle.skipped_entry) :
  TestCycle.validate E test_cases rows = Ok (matched, skipped) ->
  forall name tc attachment,
    (name, tc, attachment) ∈ matched ->
    TestCycle.CsvRow name "Passed" attachment ∈ rows /\
    tc ∈ test_cases /\ tc !! "tc_name" = Some (JStr name) /\
    path_exists E attachment = true /\
    TestCycle.allowed (TestCycle.extension E attachment) = true /\
    forall testcase_id cycle_id execution_id w,
      can_open E attachment = true ->
      sent (fst (TestCycle.upload_attachment E token project_id testcase_id
                   cycle_id execution_id attachment w))
      = (sent w ++ [attachment_request E token project_id testcase_id cycle_id
                      execution_id attachment])%list.
Proof.
  unfold TestCycle.validate. intros Hval name tc attachment Hin.
  destruct (TestCycle.test_lookup test_cases) as [lookup|e] eqn:Hl; [|done].
  simpl in Hval. rewrite test_loop_decisions in Hval. injection Hval as <- _.
  simpl in Hin. unfold matched_of in Hin.
  apply list_elem_of_omap in Hin as (d & Hd & Hm).
  apply list_elem_of_fmap in Hd as (row & -> & Hrow).
  destruct (TestCycle.check_row E lookup row) as [m|s] eqn:Hcheck; [|done].
  injection Hm as ->.
  unfold TestCycle.check_row in Hcheck.
  destruct (String.eqb_spec (TestCycle.row_status row) "Passed") as [Hst|]; [|done].
  simpl in Hcheck.
  destruct (lookup !! TestCycle.row_test_case_name row) as [tc'|] eqn:Hget; [|done].
  destruct (path_exists E (TestCycle.row_attachment row)) eqn:Hex; [|done].
  simpl in Hcheck.
  destruct (TestCycle.allowed _) eqn:Hal; [|done]. simpl in Hcheck.
  injection Hcheck as <- <- <-.
  rewrite (test_lookup_spec _ _ _ Hl) in Hget.
  apply last_named_elem in Hget as [Htc Hname].
  conjs; try done.
  - destruct row as [n s a]. simpl in *. by subst s.
  - intros testcase_id cycle_id execution_id w Hopen.
    unfold TestCycle.upload_attachment. rewrite Hex, Hal. simpl.
    unfold catch, bind at 1. rewrite Hopen. simpl.
    match goal with
    | |- context [TestCycle._request E ?m ?e ?j ?f ?d] =>
        destruct (request_sends E m e j f d w) as (r & w1 & Hrun & Hsent)
    end.
    unfold bind. rewrite Hrun.
    change (Request "POST" "/test_case_execution/execution_attachments" _)
      with (attachment_request E token project_id testcase_id cycle_id
              execution_id (TestCycle.row_attachment row)) in Hsent.
    destruct r as [response|e]; [|done].
    by destruct (dict_truthy response && truthy _).
Qed.

Lemma defect_loop_inv defects_data rows valid0 skipped0 valid skipped :
  Defect.validate_loop defects_data rows valid0 skipped0 = Ok (valid, skipped) ->
  exists ds,
    Forall2 (fun row d => Defect.check_row defects_data row = Ok d) rows ds /\
    valid = (valid0 ++ eligible_of ds)%list /\
    skipped = (skipped0 ++ skipped_of ds)%list.
Proof.
  revert valid0 skipped0. induction rows as [|row rows IH]; intros valid0 skipped0; simpl.
  - intros [= <- <-]. exists []. by rewrite !app_nil_r.
  - destruct (Defect.check_row defects_data row) as [d|e] eqn:Hd; [|done]. simpl.
    destruct d as [v|s]; intros Hloop; apply IH in Hloop as (ds & Hds & -> & ->).
    + exists (Defect.Eligible v :: ds). split; [by constructor|].
      unfold eligible_of, skipped_of. simpl. by rewrite <- app_assoc.
    + exists (Defect.Skipped s :: ds). split; [by constructor|].
      unfold eligible_of, skipped_of. simpl. by rewrite <- app_assoc.
Qed.

Lemma check_row_eligible_inv defects_data row v :
  Defect.check_row defects_data row = Ok (Defect.Eligible v) ->
  lower (Defect.row_status row) = "close" /\
  exists defect current,
    defects_data !! Defect.row_defect_id row = Some (Some defect) /\
    Defect.current_status defect = Ok current /\ current ≠ "close" /\
    v = (Defect.row_defect_id row, Defect.row_status row, Defect.row_RCA row, defect).
Proof.
  unfold Defect.check_row.
  destruct (String.eqb_spec (lower (Defect.row_status row)) "close") as [Hst|]; [|done].
  simpl. destruct (Defect.found_defect _ _) as [defect|] eqn:Hf; [|done].
  apply found_defect_spec in Hf as [Hget _].
  destruct (Defect.current_status defect) as [cur|] eqn:Hc; [|done]. simpl.
  destruct (String.eqb_spec cur "close") as [|Hne]; [done|].
  intros [= <-]. split; [done|]. exists defect, cur. done.
Qed.

(** Validation followed by the update loop, for the defect variant.  The
    three numbers of the summary add up to the number of rows of the CSV.
    The loop sends one request for each eligible row and no other; each is
    a POST to [/defects/update] for a row whose status is [close] up to
    case and a fetched defect that is not closed yet, and its form carries
    the status and the RCA as the row has them and the id of the row. *)
Theorem bulk_update_sends_only_open_defects
    (E : env) (token : string) (project_id : Z)
    (defects_data : gmap string (option (gmap string json)))
    (rows : list Defect.csv_row) (valid : list Defect.valid_entry)
    (skipped : list Defect.skipped_entry) (w : world) :
  Defect.validate defects_data rows = Ok (valid, skipped) ->
  exists s f w' posts,
    Defect.execute_and_summarise E token project_id valid skipped w
      = (w', Ok (s, f, length skipped)) /\
    (s + f + length skipped = length rows)%nat /\
    sent w' = (sent w ++ posts)%list /\ length posts = length valid /\
    Forall (fun req =>
      exists row defect current form,
        row ∈ rows /\ lower (Defect.row_status row) = "close" /\
        defects_data !! Defect.row_defect_id row = Some (Some defect) /\
        Defect.current_status defect = Ok current /\ current ≠ "close" /\
        req = Request "POST" "/defects/update" (FormBody form) /\
        form !! "status" = Some (Defect.row_status row) /\
        form !! "custom_field_11665" = Some (Defect.row_RCA row) /\
        form !! "id" = Some (Defect.row_defect_id row) /\
        form !! "defect_id" = Some (Defect.row_defect_id row)) posts.
Proof.
  unfold Defect.validate. intros Hval.
  apply defect_loop_inv in Hval as (ds & Hds & -> & ->). simpl.
  destruct (execute_updates_runs E token project_id (eligible_of ds) 0 0 w)
    as (s & f & w' & Hrun & Hsum & Hsent).
  exists s, f, w', (map (update_request E token project_id) (eligible_of ds)).
  conjs.
  - unfold Defect.execute_and_summarise, bind. by rewrite Hrun.
  - pose proof (groups_length ds). apply Forall2_length in Hds. lia.
  - exact Hsent.
  - by rewrite length_map.
  - apply Forall_forall. intros req Hreq.
    apply list_elem_of_fmap in Hreq as (v & -> & Hv).
    unfold eligible_of in Hv. apply list_elem_of_omap in Hv as (d & Hd & Hdv).
    destruct d as [v'|]; [|done]. injection Hdv as ->.
    apply list_elem_of_lookup in Hd as [i Hi].
    destruct (Forall2_lookup_r _ _ _ _ _ Hds Hi) as (row & Hrow & Hcheck).
    apply check_row_eligible_inv in Hcheck
      as (Hst & defect & current & Hget & Hcur & Hne & ->).
    exists row, defect, current,
      (Defect.update_defect_form E token project_id (Defect.row_defect_id row)
         (Defect.row_status row) (Defect.row_RCA row) defect).
    conjs; try done.
    + eapply list_elem_of_lookup_2. exact Hrow.
    + unfold Defect.update_defect_form.
      rewrite !lookup_insert_ne by done. apply lookup_insert_eq.
    + unfold Defect.update_defect_form.
      rewrite !lookup_insert_ne by done. apply lookup_insert_eq.
    + unfold Defect.update_defect_form.
      rewrite !lookup_insert_ne by done. apply lookup_insert_eq.
    + unfold Defect.update_defect_form. apply lookup_insert_eq.
Qed.

(** The bulk validator does not look at the RCA of a row: two rows that
    differ in their RCA only get the same decision, up to the RCA that an
    eligible decision carries; no RCA text is refused. *)
Theorem bulk_validation_ignores_rca
    (defects_data : gmap string (option (gmap string json)))
    (defect_id status rca rca' : string) :
  match Defect.check_row defects_data (Defect.CsvRow defect_id status rca),
        Defect.check_row defects_data (Defect.CsvRow defect_id status rca') with
  | Ok (Defect.Eligible (i, s, r, d)), Ok (Defect.Eligible (i', s', r', d')) =>
      i = i' /\ s = s' /\ d = d' /\ r = rca /\ r' = rca'
  | Ok (Defect.Skipped reason), Ok (Defect.Skipped reason') => reason = reason'
  | Raise e, Raise e' => e = e'
  | _, _ => False
  end.
Proof.
  unfold Defect.check_row. simpl.
  destruct (negb _); [done|].
  destruct (Defect.found_defect _ _) as [defect|]; [|done].
  destruct (Defect.current_status defect) as [cur|]; [|done]. simpl.
  by destruct (String.eqb cur "close").
Qed.

(** ** Text at the prompts *)

Lemma length_append (s t : string) :
  String.length (s ++ t) = (String.length s + String.length t)%nat.
Proof. induction s as [|c s IH]; [done|]. rewrite append_String. simpl. by rewrite IH. Qed.

Lemma ends_split n s :
  (2 * n <= String.length s)%nat ->
  exists middle,
    s = slice_to n s ++ middle ++ slice_last n s /\
    String.length (slice_to n s) = n /\ String.length (slice_last n s) = n.
Proof.
  intros Hlen. set (len := String.length s) in *.
  exists (substring 0 (len - 2 * n) (slice_from n s)).
  assert (Hlast : slice_last n s = slice_from (len - 2 * n) (slice_from n s)).
  { unfold slice_last. fold len. rewrite substring_from, substring_all.
    - rewrite <- slice_from_add. f_equal. lia.
    - rewrite length_slice_from. fold len. lia. }
  conjs.
  - rewrite Hlast, <- slice_split. apply slice_split.
  - apply length_slice_to. fold len. lia.
  - rewrite Hlast, !length_slice_from. fold len. lia.
Qed.

(** The summary cell of the table of test cases is never longer than 50
    characters: a summary of at most 50 characters is shown as it is, a
    longer one as its first 22 characters, three dots and its last 22
    characters. *)
Theorem summary_cell_fits (summary : string) :
  (String.length (TestCycleMenu.summary_cell summary) <= 50)%nat /\
  ((String.length summary <= 50)%nat ->
     TestCycleMenu.summary_cell summary = summary) /\
  ((50 < String.length summary)%nat ->
     exists first middle last,
       summary = first ++ middle ++ last /\
       String.length first = 22%nat /\ String.length last = 22%nat /\
       TestCycleMenu.summary_cell summary = first ++ "..." ++ last).
Proof.
  unfold TestCycleMenu.summary_cell.
  destruct (Nat.ltb_spec 50 (String.length summary)) as [Hlong|Hshort].
  - destruct (ends_split 22 summary) as (middle & Hs & Hf & Hl); [lia|].
    conjs.
    + rewrite !length_append, Hf, Hl. simpl. lia.
    + lia.
    + intros _. by exists (slice_to 22 summary), middle, (slice_last 22 summary).
  - conjs; [done|done|lia].
Qed.

Lemma lstrip_first p s c :
  first_char (Text.lstrip p s) = Some c -> p c = false.
Proof.
  induction s as [|a s IH]; simpl; [done|].
  destruct (p a) eqn:Ha; [done|]. simpl. by intros [= <-].
Qed.

Lemma lstrip_keep p s :
  (forall c, first_char s = Some c -> p c = false) -> Text.lstrip p s = s.
Proof. destruct s as [|a s]; simpl; [done|]. intros H. by rewrite (H a). Qed.

Lemma rstrip_last p s c :
  last_char (Text.rstrip p s) = Some c -> p c = false.
Proof.
  induction s as [|a s IH]; simpl; [done|].
  destruct (Text.rstrip p s) as [|b r] eqn:Hr.
  - destruct (p a) eqn:Ha; [done|]. simpl. by intros [= <-].
  - simpl. exact IH.
Qed.

Lemma rstrip_keep p s :
  (forall c, last_char s = Some c -> p c = false) -> Text.rstrip p s = s.
Proof.
  induction s as [|a s IH]; simpl; [done|]. intros H.
  destruct s as [|b s].
  - simpl. by rewrite (H a).
  - rewrite IH by exact H. done.
Qed.

Lemma rstrip_first p s c :
  first_char (Text.rstrip p s) = Some c -> first_char s = Some c.
Proof.
  destruct s as [|a s]; simpl; [done|].
  destruct (Text.rstrip p s); [destruct (p a)|]; simpl; done.
Qed.

Lemma lstrip_last p s c :
  last_char (Text.lstrip p s) = Some c -> last_char s = Some c.
Proof.
  induction s as [|a s IH]; [done|]. simpl Text.lstrip.
  destruct (p a); [|done]. intros H. apply IH in H.
  simpl. destruct s; [done|exact H].
Qed.

Lemma last_char_snoc s c : last_char (s ++ String c "") = Some c.
Proof.
  induction s as [|a s IH]; [done|]. rewrite append_String. simpl.
  destruct (s ++ String c "") eqn:Hs; [|exact IH].
  by destruct s.
Qed.

Lemma rstrip_snoc p s c :
  p c = true -> Text.rstrip p (s ++ String c "") = Text.rstrip p s.
Proof.
  intros Hc. induction s as [|a s IH].
  - simpl. by rewrite Hc.
  - rewrite append_String. simpl. by rewrite IH.
Qed.

Lemma strip_keep p s :
  (forall c, first_char s = Some c -> p c = false) ->
  (forall c, last_char s = Some c -> p c = false) ->
  Text.strip p s = s.
Proof.
  intros Hf Hl. unfold Text.strip. rewrite lstrip_keep by done. by apply rstrip_keep.
Qed.

Lemma strip_wrapped p q s :
  p q = true ->
  (forall c, first_char s = Some c -> p c = false) ->
  (forall c, last_char s = Some c -> p c = false) ->
  Text.strip p (String q (s ++ String q "")) = s.
Proof.
  intros Hq Hf Hl. unfold Text.strip. simpl. rewrite Hq.
  destruct s as [|a s].
  - simpl. by rewrite Hq.
  - rewrite lstrip_keep.
    + rewrite rstrip_snoc by done. by apply rstrip_keep.
    + simpl. intros c [= <-]. by apply Hf.
Qed.

Lemma first_char_snoc s q :
  first_char (s ++ String q "") = match first_char s with Some c => Some c | None => Some q end.
Proof. by destruct s. Qed.

Lemma edge_char_false c :
  edge_char c = false ->
  Text.is_space c = false /\ Ascii.eqb "034"%char c = false /\
  Ascii.eqb "'"%char c = false.
Proof.
  unfold edge_char. intros H.
  apply orb_false_elim in H as [H H3]. apply orb_false_elim in H as [H1 H2]. done.
Qed.

Lemma strip_quoted p q s :
  p q = false -> Text.strip p (String q (s ++ String q "")) = String q (s ++ String q "").
Proof.
  intros Hq. apply strip_keep.
  - simpl. by intros c [= <-].
  - intros c. change (String q (s ++ String q "")) with (String q s ++ String q "").
    rewrite last_char_snoc. by intros [= <-].
Qed.

(** The clean-up of a path typed at a prompt leaves a plain path alone and
    recovers it from the forms a terminal produces when a file is dropped
    on it: the path in double quotes, in apostrophes, and behind the
    PowerShell call operator with either kind of quotes. *)
Theorem clean_path_unwraps (p : string) :
  plain_path p ->
  Text.clean_path p = p /\
  Text.clean_path (dquote ++ p ++ dquote) = p /\
  Text.clean_path ("'" ++ p ++ "'") = p /\
  Text.clean_path ("& " ++ dquote ++ p ++ dquote) = p /\
  Text.clean_path ("& '" ++ p ++ "'") = p.
Proof.
  intros (Hf & Hl & Hamp).
  assert (Hsp : forall q, (forall c, q c = true -> edge_char c = true) ->
                  Text.strip q p = p).
  { intros q Hq. apply strip_keep; intros c Hc.
    - destruct (q c) eqn:Hqc; [|done]. apply Hq in Hqc. apply Hf in Hc. congruence.
    - destruct (q c) eqn:Hqc; [|done]. apply Hq in Hqc. apply Hl in Hc. congruence. }
  assert (Hspace : Text.strip Text.is_space p = p).
  { apply Hsp. intros c Hc. unfold edge_char. by rewrite Hc. }
  assert (Hdq : Text.strip (Ascii.eqb "034"%char) p = p).
  { apply Hsp. intros c Hc. unfold edge_char. rewrite Hc. by rewrite orb_true_r. }
  assert (Hap : Text.strip (Ascii.eqb "'"%char) p = p).
  { apply Hsp. intros c Hc. unfold edge_char. rewrite Hc. by rewrite !orb_true_r. }
  assert (Hwd : Text.strip (Ascii.eqb "034"%char) (String "034"%char (p ++ dquote)) = p).
  { apply strip_wrapped; [done| |].
    - intros c Hc. by apply Hf, edge_char_false in Hc as (_ & ? & _).
    - intros c Hc. by apply Hl, edge_char_false in Hc as (_ & ? & _). }
  assert (Hwa : Text.strip (Ascii.eqb "'"%char) (String "'"%char (p ++ "'")) = p).
  { apply strip_wrapped; [done| |].
    - intros c Hc. by apply Hf, edge_char_false in Hc as (_ & _ & ?).
    - intros c Hc. by apply Hl, edge_char_false in Hc as (_ & _ & ?). }
  unfold Text.clean_path. conjs.
  - rewrite Hspace, Hamp, Hdq. exact Hap.
  - change (dquote ++ p ++ dquote) with (String "034"%char (p ++ String "034"%char "")).
    rewrite (strip_quoted Text.is_space "034"%char p) by done.
    simpl String.prefix. cbv iota.
    change (String "034"%char "") with dquote. rewrite Hwd. exact Hap.
  - change ("'" ++ p ++ "'") with (String "'"%char (p ++ String "'"%char "")).
    rewrite (strip_quoted Text.is_space "'"%char p) by done.
    simpl String.prefix. cbv iota.
    rewrite (strip_quoted (Ascii.eqb "034"%char) "'"%char p) by done. exact Hwa.
  -     assert (Hkeep : Text.strip Text.is_space ("& " ++ dquote ++ p ++ dquote)
                    = "& " ++ dquote ++ p ++ dquote).
    { apply strip_keep.
      - simpl. by intros c [= <-].
      - intros c.
        change ("& " ++ dquote ++ p ++ dquote)
          with (String "&"%char (String " "%char (String "034"%char p))
                ++ String "034"%char "").
        rewrite last_char_snoc. by intros [= <-]. }
    rewrite Hkeep.
    change ("& " ++ dquote ++ p ++ dquote)
      with (String "&"%char (String " "%char (String "034"%char (p ++ dquote)))).
    simpl String.prefix. cbv iota. simpl slice_from. rewrite Hwd. exact Hap.
  - assert (Hkeep : Text.strip Text.is_space ("& '" ++ p ++ "'") = "& '" ++ p ++ "'").
    { apply strip_keep.
      - simpl. by intros c [= <-].
      - intros c.
        change ("& '" ++ p ++ "'")
          with (String "&"%char (String " "%char (String "'"%char p))
                ++ String "'"%char "").
        rewrite last_char_snoc. by intros [= <-]. }
    rewrite Hkeep.
    change ("& '" ++ p ++ "'")
      with (String "&"%char (String " "%char (String "'"%char (p ++ String "'"%char "")))).
    simpl String.prefix. cbv iota. simpl slice_from.
    rewrite (strip_quoted (Ascii.eqb "034"%char) "'"%char p) by done. exact Hwa.
Qed.

(** Whatever is typed, the cleaned path neither begins nor ends with an
    apostrophe. *)
Theorem clean_path_has_no_apostrophe_at_the_ends (s : string) :
  first_char (Text.clean_path s) ≠ Some "'"%char /\
  last_char (Text.clean_path s) ≠ Some "'"%char.
Proof.
  unfold Text.clean_path, Text.strip. split; intros H.
  - apply rstrip_first, lstrip_first in H. done.
  - apply rstrip_last in H. done.
Qed.

(** ** The single update *)

Lemma option_in_range selection :
  in_range selection ->
  exists rca, DefectMenu.RCA_OPTIONS !! Z.to_nat (selection - 1) = Some rca.
Proof.
  intros [H1 H2]. apply lookup_lt_is_Some_2. lia.
Qed.

Lemma in_range_test selection :
  ((1 <=? selection) && (selection <=? Z.of_nat (length DefectMenu.RCA_OPTIONS)))%Z = true
  <-> in_range selection.
Proof.
  unfold in_range. rewrite andb_true_iff, Z.leb_le, Z.leb_le. done.
Qed.

Lemma select_rca_cons x rest :
  DefectMenu.select_rca (x :: rest)
  = if ((1 <=? x) && (x <=? Z.of_nat (length DefectMenu.RCA_OPTIONS)))%Z
    then DefectMenu.RCA_OPTIONS !! Z.to_nat (x - 1)
    else DefectMenu.select_rca rest.
Proof. reflexivity. Qed.

(** The prompt for the RCA goes on until a number between 1 and 28 is
    entered: the numbers out of range that come first are passed over, the
    first one in range selects the option at that place of the list, and
    the loop is still asking exactly when no number in range was entered.
    An RCA that is selected is one of the 28 options. *)
Theorem select_rca_takes_first_in_range (selections : list Z) :
  length DefectMenu.RCA_OPTIONS = 28%nat /\
  (forall rca,
     DefectMenu.select_rca selections = Some rca ->
     rca ∈ DefectMenu.RCA_OPTIONS /\
     exists before selection after,
       selections = (before ++ selection :: after)%list /\
       Forall (fun x => ~ in_range x) before /\ in_range selection /\
       DefectMenu.RCA_OPTIONS !! Z.to_nat (selection - 1) = Some rca) /\
  (DefectMenu.select_rca selections = None <->
   Forall (fun x => ~ in_range x) selections).
Proof.
  split; [reflexivity|].
  induction selections as [|x rest [IHsome IHnone]].
  - split; [done|]. split; [constructor|done].
  - rewrite select_rca_cons.
    destruct (((1 <=? x) && (x <=? Z.of_nat (length DefectMenu.RCA_OPTIONS)))%Z)
      eqn:Hx.
    + apply in_range_test in Hx. split.
      * intros rca Hrca. split; [by eapply list_elem_of_lookup_2|].
        exists [], x, rest. conjs; done.
      * destruct (option_in_range x Hx) as [rca Hrca]. rewrite Hrca.
        split; [done|]. intros Hall. by apply Forall_cons_1 in Hall as [? _].
    + assert (Hout : ~ in_range x).
      { intros Hin. apply in_range_test in Hin. congruence. }
      split.
      * intros rca Hrca. destruct (IHsome rca Hrca)
          as (Hin & before & sel & after & -> & Hb & Hs & Hl).
        split; [done|]. exists (x :: before), sel, after. conjs; try done.
        by constructor.
      * rewrite IHnone. split; [by constructor|]. intros H.
        by apply Forall_cons_1 in H as [_ ?].
Qed.

Section Single.
Variable E : env.
Variable token : string.
Variable project_id : Z.

Lemma update_single_defect_runs
    (defect_id : string) (selections : list Z) (confirm : string) (w : world) :
  exists out w',
    DefectMenu.update_single_defect E token project_id defect_id
      selections confirm w = (w', Ok out) /\
    ((exists success, out = DefectMenu.Updated success) ->
       lower confirm = "y" /\
       exists defect current rca,
         defect ≠ ∅ /\
         Defect.current_status defect = Ok current /\ current ≠ "close" /\
         DefectMenu.select_rca selections = Some rca /\
         sent w'
         = (sent w ++ [details_request token project_id defect_id;
                       update_request E token project_id
                         (defect_id, "close", rca, defect)])%list) /\
    ((forall success, out ≠ DefectMenu.Updated success) ->
       sent w' = sent w \/
       sent w' = (sent w ++ [details_request token project_id defect_id])%list).
Proof.
  unfold DefectMenu.update_single_defect, catch.
  destruct (String.eqb defect_id ""); simpl.
  { exists DefectMenu.NoId, w. conjs; [done|by intros [? ?]|by left]. }
  destruct (get_defect_details_runs E token project_id defect_id w)
    as (details & w1 & Hrun & Hsent1 & _).
  unfold bind at 1. rewrite Hrun.
  destruct details as [defect|]; simpl;
    [|exists DefectMenu.NoDefect, w1; conjs; [done|by intros [? ?]|by right]].
  destruct (dict_truthy defect) eqn:Htruthy; simpl;
    [|exists DefectMenu.NoDefect, w1; conjs; [done|by intros [? ?]|by right]].
  assert (Hne : defect ≠ ∅).
  { intros ->. done. }
  unfold bind at 1, lift.
  destruct (Defect.current_status defect) as [current|e] eqn:Hcur; simpl;
    [|do 2 eexists; conjs; [done|by intros [? ?]|by right]].
  destruct (String.eqb_spec current "close") as [|Hopen]; simpl;
    [exists DefectMenu.AlreadyClosed, w1; conjs; [done|by intros [? ?]|by right]|].
  destruct (DefectMenu.select_rca selections) as [rca|] eqn:Hsel; simpl;
    [|exists DefectMenu.StillAsking, w1; conjs; [done|by intros [? ?]|by right]].
  destruct (String.eqb_spec (lower confirm) "y") as [Hyes|]; simpl;
    [|exists DefectMenu.NotConfirmed, w1; conjs; [done|by intros [? ?]|by right]].
  destruct (update_defect_runs E token project_id defect_id "close" rca defect w1)
    as (ok & w2 & Hupd & Hsent2).
  unfold bind. rewrite Hupd. simpl.
  exists (DefectMenu.Updated ok), w2.
  conjs; [done| |by intros H; destruct (H ok)].
  intros _. split; [done|]. exists defect, current, rca. conjs; try done.
  rewrite Hsent2, Hsent1. by rewrite <- app_assoc.
Qed.


End Single.

(** ** The runs of the test-cycle menu *)

Lemma selected_spec {A} (items : list A) (choice : Z) (x : A) :
  TestCycleMenu.selected items choice = Some x <->
  (1 <= choice <= Z.of_nat (length items))%Z /\
  items !! Z.to_nat (choice - 1) = Some x.
Proof.
  unfold TestCycleMenu.selected.
  destruct (Z.ltb_spec choice 1); simpl.
  - split; [done|]. intros [? _]. lia.
  - destruct (Z.ltb_spec (Z.of_nat (length items)) choice); simpl.
    + split; [done|]. intros [? _]. lia.
    + split; [intros Hx; split; [lia|done]|by intros [_ ?]].
Qed.

Section Runs.
Variable E : env.
Variable token : string.
Variable project_id : Z.

Lemma execute_single_from_list_runs (cycle_id : json)
    (test_cases : list (gmap string json)) (choice : Z)
    (attachment_path : string) (w : world) :
  exists out w',
    TestCycleMenu.execute_single_from_list E token project_id cycle_id
      test_cases choice attachment_path w = (w', Ok out) /\
    (sent w' = sent w \/
     exists test_case rest,
       TestCycleMenu.selected test_cases choice = Some test_case /\
       path_exists E (Text.clean_path attachment_path) = true /\
       TestCycle.allowed (TestCycle.extension E (Text.clean_path attachment_path))
         = true /\
       sent w'
       = (sent w ++ execute_test_request token project_id
                      (default JNull (test_case !! "testcase_id"))
                      (default JNull (test_case !! "build_id")) cycle_id
                      (default JNull (test_case !! "testscenario_id")) :: rest)%list /\
       (rest = [] \/
        exists execution_id,
          truthy execution_id = true /\
          rest = [attachment_request E token project_id
                    (default JNull (test_case !! "testcase_id")) cycle_id
                    execution_id (Text.clean_path attachment_path)])).
Proof.
  unfold TestCycleMenu.execute_single_from_list, catch.
  destruct (choice =? 0)%Z; simpl; [exists TestCycleMenu.NoChoice, w; by split; [|left]|].
  destruct (TestCycleMenu.selected test_cases choice) as [test_case|] eqn:Hsel; simpl;
    [|exists TestCycleMenu.InvalidSelection, w; by split; [|left]].
  set (p := Text.clean_path attachment_path).
  destruct (path_exists E p) eqn:Hex; simpl;
    [|exists TestCycleMenu.AttachmentNotFound, w; by split; [|left]].
  destruct (TestCycle.allowed (TestCycle.extension E p)) eqn:Hal; simpl;
    [|exists TestCycleMenu.InvalidFileType, w; by split; [|left]].
  destruct (execute_test_sends E token project_id cycle_id ("", test_case, p) w)
    as (r & w1 & Hexec & Hsent1). simpl in Hexec.
  change (execute_request token project_id cycle_id ("", test_case, p))
    with (execute_test_request token project_id
            (default JNull (test_case !! "testcase_id"))
            (default JNull (test_case !! "build_id")) cycle_id
            (default JNull (test_case !! "testscenario_id"))) in Hsent1.
  unfold bind at 1. rewrite Hexec.
  destruct r as [execution_id|e]; simpl.
  - destruct (truthy execution_id) eqn:Hid; simpl.
    + destruct (upload_attachment_sends E token project_id cycle_id
                  ("", test_case, p) execution_id w1) as (ok & w2 & Hup & Hsent2).
      simpl in Hup. unfold bind. rewrite Hup. simpl.
      exists (TestCycleMenu.Executed ok), w2. split; [done|]. right.
      destruct Hsent2 as [Hsame|Hmore].
      * exists test_case, []. conjs; try done; [by rewrite Hsame|by left].
      * exists test_case. eexists. conjs; try done.
        -- rewrite Hmore, Hsent1. by rewrite <- app_assoc.
        -- right. exists execution_id. split; [done|reflexivity].
    + exists TestCycleMenu.ExecutionFailed, w1. split; [done|]. right.
      exists test_case, []. conjs; try done. by left.
  - do 2 eexists. split; [reflexivity|]. right.
    exists test_case, []. conjs; try done. by left.
Qed.


End Runs.

Section BulkRuns.
#[local] Arguments has_columns : simpl never.
Variable E : env.
Variable token : string.
Variable project_id : Z.

Lemma execute_all_from_csv_runs
    (read_csv : string -> result (csv_file TestCycle.csv_row))
    (cycle_id : json) (test_cases : list (gmap string json))
    (csv_file : string) (confirmed : bool) (w : world) :
  exists out w',
    TestCycleMenu.execute_all_from_csv E token project_id read_csv cycle_id
      test_cases csv_file confirmed w = (w', Ok out) /\
    ((forall s f k, out ≠ Summary s f k) -> sent w' = sent w) /\
    (forall s f k, out = Summary s f k ->
       confirmed = true /\
       exists csv matched skipped traces,
         read_csv (Text.clean_path csv_file) = Ok csv /\
         TestCycle.validate E test_cases (csv_rows csv) = Ok (matched, skipped) /\
         matched ≠ [] /\
         (s + f = length matched)%nat /\ k = length skipped /\
         sent w' = (sent w ++ concat traces)%list /\
         Forall2 (row_trace E token project_id cycle_id) matched traces).
Proof.
  unfold TestCycleMenu.execute_all_from_csv, catch.
  destruct (String.eqb csv_file ""); simpl;
    [exists Cancelled, w; by conjs|].
  set (p := Text.clean_path csv_file).
  destruct (path_exists E p); simpl; [|exists FileNotFound, w; by conjs].
  unfold bind at 1, lift.
  destruct (read_csv p) as [csv|e] eqn:Hread; simpl;
    [|do 2 eexists; by conjs].
  destruct (csv_rows csv) as [|row rows] eqn:Hrows; simpl;
    [exists EmptyCSV, w; by conjs|].
  destruct (has_columns _ (fieldnames csv)); simpl; [|exists MissingColumns, w; by conjs].
  unfold bind at 1.
  destruct (TestCycle.validate E test_cases (row :: rows)) as [[matched skipped]|e]
    eqn:Hval; simpl; [|do 2 eexists; by conjs].
  destruct matched as [|m matched]; simpl;
    [exists (NothingEligible (length skipped)), w; by conjs|].
  destruct confirmed; simpl; [|exists Declined, w; by conjs].
  destruct (execute_rows_runs E token project_id cycle_id (m :: matched) 0 0 w)
    as (s & f & w' & traces & Hrun & Hsum & Hsent & Hall).
  unfold TestCycle.execute_and_summarise, bind. rewrite Hrun. simpl.
  exists (Summary s f (length skipped)), w'. conjs; [done| |].
  - intros H. by destruct (H s f (length skipped)).
  - intros s' f' k' [= <- <- <-]. split; [done|].
    exists csv, (m :: matched), skipped, traces. rewrite Hrows. by conjs.
Qed.

Lemma test_validate_length test_cases rows matched skipped :
  TestCycle.validate E test_cases rows = Ok (matched, skipped) ->
  (length matched + length skipped = length rows)%nat.
Proof.
  unfold TestCycle.validate.
  destruct (TestCycle.test_lookup test_cases) as [lookup|]; [|done]. simpl.
  rewrite test_loop_decisions. intros [= <- <-]. simpl.
  by rewrite matched_groups_length, length_map.
Qed.


(** A run of the pool, as [get_multiple_defects] allows it. *)
Lemma pool_sends_gets defect_ids w w' results :
  Defect.get_multiple_defects E token project_id defect_ids w w' results ->
  exists gets,
    sent w' = (sent w ++ gets)%list /\ length gets = length defect_ids /\
    Forall (fun r => req_method r = "GET") gets.
Proof.
  intros (started & fetched & completed & Hst & Hrun & _ & _).
  destruct (run_workers_runs E token project_id started w)
    as (fetched' & w'' & Hrun' & Hsent & _).
  rewrite Hrun in Hrun'. injection Hrun' as <- <-.
  exists (map (details_request token project_id) started). conjs.
  - exact Hsent.
  - rewrite length_map. by rewrite Hst.
  - apply Forall_forall. intros r Hr.
    by apply list_elem_of_fmap in Hr as (did & -> & _).
Qed.

Lemma defect_validate_length defects_data rows valid skipped :
  Defect.validate defects_data rows = Ok (valid, skipped) ->
  (length valid + length skipped = length rows)%nat.
Proof.
  unfold Defect.validate. intros H.
  apply defect_loop_inv in H as (ds & Hds & -> & ->). simpl.
  rewrite groups_length. symmetry. by eapply Forall2_length.
Qed.

Lemma update_bulk_defects_runs
    (read_csv : string -> result (csv_file Defect.csv_row))
    (pool : list string -> M (gmap string (option (gmap string json))))
    (csv_file confirm : string) (w : world) :
  (forall defect_ids w0,
     exists w1 defects_data,
       pool defect_ids w0 = (w1, Ok defects_data) /\
       Defect.get_multiple_defects E token project_id defect_ids w0 w1 defects_data) ->
  exists out w' gets posts,
    DefectMenu.update_bulk_defects E token project_id read_csv pool csv_file
      confirm w = (w', Ok out) /\
    sent w' = (sent w ++ gets ++ posts)%list /\
    Forall (fun r => req_method r = "GET") gets /\
    Forall (fun r => req_method r = "POST" /\ req_endpoint r = "/defects/update")
      posts /\
    ((forall s f k, out ≠ Summary s f k) -> posts = []) /\
    (forall s f k, out = Summary s f k ->
       lower confirm = "yes" /\ (0 < s + f)%nat /\ length posts = (s + f)%nat /\
       exists csv,
         read_csv (Text.clean_path csv_file) = Ok csv /\
         length gets = length (csv_rows csv) /\
         (s + f + k = length (csv_rows csv))%nat).
Proof.
  intros Hpool. unfold DefectMenu.update_bulk_defects, catch.
  destruct (String.eqb csv_file ""); simpl;
    [exists Cancelled, w, [], []; rewrite app_nil_r; by conjs|].
  set (p := Text.clean_path csv_file).
  destruct (path_exists E p); simpl;
    [|exists FileNotFound, w, [], []; rewrite app_nil_r; by conjs].
  unfold bind at 1, lift.
  destruct (read_csv p) as [csv|e] eqn:Hread; simpl;
    [|exists (Failed e); eexists; exists [], []; rewrite app_nil_r; by conjs].
  destruct (csv_rows csv) as [|row rows] eqn:Hrows; simpl;
    [exists EmptyCSV, w, [], []; rewrite app_nil_r; by conjs|].
  destruct (has_columns _ (fieldnames csv)); simpl;
    [|exists MissingColumns, w, [], []; rewrite app_nil_r; by conjs].
  destruct (Hpool (Defect.row_defect_id row :: map Defect.row_defect_id rows) w)
    as (w1 & defects_data & Hrun & Hrel).
  apply pool_sends_gets in Hrel as (gets & Hsent1 & Hlen & Hgets).
  unfold bind at 1. rewrite Hrun.
  unfold bind at 1.
  destruct (Defect.validate defects_data (row :: rows)) as [[valid skipped]|e]
    eqn:Hval; simpl;
    [|exists (Failed e); eexists; exists gets, []; rewrite app_nil_r; by conjs].
  unfold bind at 1.
  destruct (DefectMenu.preview valid) as [[]|e]; simpl;
    [|exists (Failed e); eexists; exists gets, []; rewrite app_nil_r; by conjs].
  destruct valid as [|v valid]; simpl;
    [exists (NothingEligible (length skipped)), w1, gets, [];
     rewrite app_nil_r; by conjs|].
  destruct (String.eqb_spec (lower confirm) "yes") as [Hyes|]; simpl;
    [|exists Declined, w1, gets, []; rewrite app_nil_r; by conjs].
  destruct (execute_updates_runs E token project_id (v :: valid) 0 0 w1)
    as (s & f & w2 & Hexec & Hsum & Hsent2).
  unfold Defect.execute_and_summarise, bind. rewrite Hexec. simpl.
  exists (Summary s f (length skipped)), w2, gets,
    (map (update_request E token project_id) (v :: valid)).
  conjs; try done.
  - rewrite Hsent2, Hsent1. by rewrite <- app_assoc.
  - apply Forall_forall. intros r Hr.
    apply list_elem_of_fmap in Hr as ([[[i st] rca] d] & -> & _). done.
  - intros H. by destruct (H s f (length skipped)).
  - intros s' f' k' [= <- <- <-]. conjs; [done|simpl in Hsum; lia| |].
    + rewrite length_map. simpl in *. lia.
    + exists csv. rewrite Hrows. conjs; [done| |].
      * rewrite Hlen. simpl. by rewrite length_map.
      * apply defect_validate_length in Hval. simpl in *. lia.
Qed.


End BulkRuns.

(** ** Where the fetched defects come from *)

Section Origin.
Variable E : env.
Variable token : string.
Variable project_id : Z.

Lemma get_defect_details_genuine defect_id w body :
  snd (Defect.get_defect_details E token project_id defect_id w) = Ok (Some body) ->
  answered E token project_id defect_id body.
Proof.
  unfold Defect.get_defect_details, Defect._request, answered. monad.
  change (Request "GET" _ NoBody) with (details_request token project_id defect_id).
  destruct (net E (sent w) _) as [|code text [j|]] eqn:Hnet; simpl.
  - by destruct (json_error_is_request_exception E).
  - destruct (code =? 200)%Z eqn:H200; simpl.
    + intros [= <-]. exists (sent w), code, text. split; [done|].
      apply Z.eqb_eq in H200. lia.
    + destruct (raise_for_status code) as [[]|e] eqn:Hr; simpl.
      * intros [= <-]. exists (sent w), code, text. split; [done|].
        intros Hc. by rewrite (in_range_raises _ Hc) in Hr.
      * by destruct (is_request_exception E e).
  - destruct (code =? 200)%Z; simpl.
    + by destruct (json_error_is_request_exception E).
    + destruct (raise_for_status code) as [[]|e]; simpl.
      * by destruct (json_error_is_request_exception E).
      * by destruct (is_request_exception E e).
Qed.

Lemma run_workers_genuine started w fetched w' :
  Defect.run_workers E token project_id started w = (w', Ok fetched) ->
  Forall2 (genuine E token project_id) started fetched.
Proof.
  revert w fetched. induction started as [|did rest IH]; intros w fetched; simpl.
  - intros [= _ <-]. constructor.
  - unfold bind, Defect.submit.
    destruct (Defect.get_defect_details E token project_id did w)
      as [w1 [details|e]] eqn:Hget.
    + destruct (Defect.run_workers E token project_id rest w1)
        as [w2 [fs|e]] eqn:Hrest; [|done].
      simpl. intros [= <- <-]. constructor; [|by eapply IH].
      exists details. split; [done|]. intros body ->.
      apply (get_defect_details_genuine did w). by rewrite Hget.
    + destruct (get_defect_details_runs E token project_id did w)
        as (d & w1' & Hrun & _). congruence.
Qed.

(** The table [get_multiple_defects] returns holds nothing of its own
    making: a defect stored under an id is a body that the service has
    sent in answer to the request for the details of that very id, and
    the id is one of those asked for. *)
Theorem fetched_defects_are_genuine (defect_ids : list string) (w w' : world)
    (results : gmap string (option (gmap string json))) :
  Defect.get_multiple_defects E token project_id defect_ids w w' results ->
  forall defect_id body,
    results !! defect_id = Some (Some body) ->
    defect_id ∈ defect_ids /\ answered E token project_id defect_id body.
Proof.
  intros (started & fetched & completed & Hst & Hrun & Hco & ->) defect_id body Hget.
  pose proof (run_workers_genuine _ _ _ _ Hrun) as Hgen.
  destruct (run_workers_runs E token project_id started w)
    as (fetched' & w'' & Hrun' & _ & Hserved).
  rewrite Hrun in Hrun'. injection Hrun' as <- <-.
  assert (Hall : Forall (fun f => exists did, served E token project_id did f) completed).
  { rewrite Hco. clear -Hserved. induction Hserved; constructor; eauto. }
  destruct (collect_fold E token project_id completed ∅ Hall) as [_ Hval].
  fold (Defect.collect completed) in Hval.
  destruct (Hval defect_id (Some body) Hget) as [H0|Hin];
    [by rewrite lookup_empty in H0|].
  rewrite Hco in Hin. rewrite <- Hst.
  clear -Hgen Hin. induction Hgen as [|did f ? ? (d & -> & Hbody) _ IH].
  - by apply elem_of_nil in Hin.
  - apply elem_of_cons in Hin as [Heq|Hin].
    + injection Heq as -> _ <-. split; [apply list_elem_of_here|by apply Hbody].
    + destruct (IH Hin) as [? ?]. split; [by apply list_elem_of_further|done].
Qed.

Lemma sequential_pool_is_a_run defect_ids w :
  exists w' results,
    sequential_pool E token project_id defect_ids w = (w', Ok results) /\
    Defect.get_multiple_defects E token project_id defect_ids w w' results.
Proof.
  destruct (run_workers_runs E token project_id defect_ids w)
    as (fetched & w' & Hrun & _).
  exists w', (Defect.collect fetched). unfold sequential_pool. rewrite Hrun.
  split; [done|]. by exists defect_ids, fetched, fetched.
Qed.

End Origin.

(** ** Closed instances *)

Lemma update_defect_true_iff_answered_witness :
  snd (Defect.update_defect (answering 201 ∅) "abcd1234efgh" 7 "101" "close"
         "Code: Bug" open_defect fresh) = Ok true /\
  errlog (fst (Defect.update_defect (answering 201 ∅) "abcd1234efgh" 7 "101"
                 "close" "Code: Bug" open_defect fresh))
  = [(ERROR, "API Error: {}")].
Proof.
  destruct (update_defect_true_iff_answered (answering 201 ∅) "abcd1234efgh" 7
              "101" "close" "Code: Bug" open_defect fresh) as (_ & _ & H).
  apply (H 201%Z "{}" ∅); [reflexivity|lia|lia].
Defined.

Lemma get_defect_details_body_witness :
  snd (Defect.get_defect_details down_env "abcd1234efgh" 7 "101" fresh) = Ok None /\
  error_logged (fst (Defect.get_defect_details down_env "abcd1234efgh" 7 "101" fresh)).
Proof.
  apply (get_defect_details_body down_env "abcd1234efgh" 7 "101" fresh). exact I.
Defined.

Lemma list_defects_data_witness :
  snd (Defect.list_defects (answering 200 listed_defects) "abcd1234efgh" 7 2000 fresh)
    = Ok (JList [JDict open_defect]) /\
  errlog (fst (Defect.list_defects (answering 200 listed_defects) "abcd1234efgh"
                 7 2000 fresh)) = [].
Proof.
  apply (list_defects_data (answering 200 listed_defects) "abcd1234efgh" 7 2000
           fresh "{}" listed_defects); reflexivity.
Defined.

Lemma execute_test_id_origin_witness :
  exists code text j r rest,
    net flaky_env (sent fresh)
      (execute_test_request "abcd1234efgh" 7 (JInt 11) JNull (JInt 3) JNull)
      = Response code text (Some j) /\
    ~ (400 <= code < 600)%Z /\
    truthy (default JNull (j !! "status")) = true /\
    j !! "executed_results" = Some (JList (JDict r :: rest)) /\
    r !! "id" = Some (JInt 55).
Proof.
  apply (execute_test_id_origin flaky_env "abcd1234efgh" 7
           (JInt 11) JNull (JInt 3) JNull fresh); reflexivity.
Defined.

Lemma upload_attachment_checks_first_witness :
  let res := TestCycle.upload_attachment no_files_env "abcd1234efgh" 7 (JInt 11)
               (JInt 3) (JInt 55) "gone.png" fresh in
  snd res = Ok false /\ sent (fst res) = sent fresh /\ error_logged (fst res).
Proof.
  apply (upload_attachment_checks_first no_files_env "abcd1234efgh" 7 (JInt 11)
           (JInt 3) (JInt 55) "gone.png" fresh).
  left. reflexivity.
Defined.

Lemma upload_attachment_true_iff_witness :
  snd (TestCycle.upload_attachment (answering 200 (<["status" := JBool true]> ∅))
         "abcd1234efgh" 7 (JInt 11) (JInt 3) (JInt 55) "shot.png" fresh) = Ok true.
Proof.
  apply (upload_attachment_true_iff (answering 200 (<["status" := JBool true]> ∅))
           "abcd1234efgh" 7 (JInt 11) (JInt 3) (JInt 55) "shot.png" fresh).
  conjs; [reflexivity|reflexivity|reflexivity|].
  exists 200%Z, "{}", (<["status" := JBool true]> ∅).
  conjs; [reflexivity|lia|reflexivity].
Defined.


Lemma matched_entries_are_ready_witness :
  TestCycle.CsvRow "TC_Android_01" "Passed" "shot.png" ∈ android_rows /\
  second_android ∈ [first_android; second_android] /\
  second_android !! "tc_name" = Some (JStr "TC_Android_01") /\
  path_exists quiet_env "shot.png" = true /\
  TestCycle.allowed (TestCycle.extension quiet_env "shot.png") = true /\
  forall testcase_id cycle_id execution_id w,
    can_open quiet_env "shot.png" = true ->
    sent (fst (TestCycle.upload_attachment quiet_env "abcd1234efgh" 7 testcase_id
                 cycle_id execution_id "shot.png" w))
    = (sent w ++ [attachment_request quiet_env "abcd1234efgh" 7 testcase_id
                    cycle_id execution_id "shot.png"])%list.
Proof.
  apply (matched_entries_are_ready quiet_env "abcd1234efgh" 7
           [first_android; second_android] android_rows
           [("TC_Android_01", second_android, "shot.png")]
           [("TC_Android_02", TestCycle.invalid_status_reason, None)]).
  - reflexivity.
  - apply list_elem_of_here.
Defined.

Lemma bulk_update_sends_only_open_defects_witness :
  exists s f w' posts,
    Defect.execute_and_summarise quiet_env "abcd1234efgh" 7
      [("101", "close", "Code: Bug", <["status" := JStr "open"]> ∅)]
      [("102", "Already closed"); ("103", "Defect not found")] fresh
      = (w', Ok (s, f, 2%nat)) /\
    (s + f + 2 = 3)%nat /\
    sent w' = (sent fresh ++ posts)%list /\ length posts = 1%nat /\
    Forall (fun req =>
      exists row defect current form,
        row ∈ scenario_rows /\ lower (Defect.row_status row) = "close" /\
        scenario_defects !! Defect.row_defect_id row = Some (Some defect) /\
        Defect.current_status defect = Ok current /\ current ≠ "close" /\
        req = Request "POST" "/defects/update" (FormBody form) /\
        form !! "status" = Some (Defect.row_status row) /\
        form !! "custom_field_11665" = Some (Defect.row_RCA row) /\
        form !! "id" = Some (Defect.row_defect_id row) /\
        form !! "defect_id" = Some (Defect.row_defect_id row)) posts.
Proof.
  apply (bulk_update_sends_only_open_defects quiet_env "abcd1234efgh" 7
           scenario_defects scenario_rows
           [("101", "close", "Code: Bug", <["status" := JStr "open"]> ∅)]
           [("102", "Already closed"); ("103", "Defect not found")] fresh).
  reflexivity.
Defined.

Lemma summary_cell_fits_witness :
  exists first middle last,
    "Login with an expired password shows the reset form, not an error"
      = first ++ middle ++ last /\
    String.length first = 22%nat /\ String.length last = 22%nat /\
    TestCycleMenu.summary_cell
      "Login with an expired password shows the reset form, not an error"
      = first ++ "..." ++ last.
Proof.
  apply (summary_cell_fits
           "Login with an expired password shows the reset form, not an error").
  simpl. lia.
Defined.

Lemma clean_path_unwraps_witness :
  Text.clean_path "& 'C:\Screenshots\test1.png'" = "C:\Screenshots\test1.png".
Proof.
  assert (Hplain : plain_path "C:\Screenshots\test1.png").
  { unfold plain_path. conjs.
    - intros c Hc. injection Hc as <-. reflexivity.
    - intros c Hc. injection Hc as <-. reflexivity.
    - reflexivity. }
  destruct (clean_path_unwraps "C:\Screenshots\test1.png" Hplain)
    as (_ & _ & _ & _ & H).
  exact H.
Defined.

Lemma select_rca_takes_first_in_range_witness :
  "Code: Bug" ∈ DefectMenu.RCA_OPTIONS /\
  exists before selection after,
    [0; 31; 2; 5]%Z = (before ++ selection :: after)%list /\
    Forall (fun x => ~ in_range x) before /\ in_range selection /\
    DefectMenu.RCA_OPTIONS !! Z.to_nat (selection - 1) = Some "Code: Bug".
Proof.
  apply (select_rca_takes_first_in_range [0; 31; 2; 5]%Z). reflexivity.
Defined.





Lemma fetched_defects_are_genuine_witness :
  "101" ∈ ["101"; "102"] /\
  answered (answering 200 open_defect) "abcd1234efgh" 7 "101" open_defect.
Proof.
  apply (fetched_defects_are_genuine (answering 200 open_defect) "abcd1234efgh" 7
           ["101"; "102"] fresh
           (fst (Defect.run_workers (answering 200 open_defect) "abcd1234efgh" 7
                   ["101"; "102"] fresh))
           (Defect.collect [("101", Ok ("101", Some open_defect));
                            ("102", Ok ("102", Some open_defect))])).
  - exists ["101"; "102"],
      [("101", Ok ("101", Some open_defect)); ("102", Ok ("102", Some open_defect))],
      [("101", Ok ("101", Some open_defect)); ("102", Ok ("102", Some open_defect))].
    conjs; reflexivity.
  - reflexivity.
Defined.
